(** * GeminiPost: vote bookkeeping and comment nesting of [src/app.jsx]

    The application keeps posts and comments in a document store and does two
    pieces of data shaping on the client: [handleVote] (like / dislike
    toggling with denormalised counters, lines 266-338) and the comment
    snapshot callback (nesting replies under top-level comments, lines
    185-193).  Both are embedded here as functions over an explicit store. *)

From Stdlib Require Import ZArith Lia.
From stdpp Require Import gmap strings list fin_maps sorting.

#[local] Set Warnings "-clear-no-such-hyp".

(** ** Documents and the store *)

(** The fields of a post or comment document that the code reads or writes.
    [handlePostSubmit] and [handleCommentSubmit] create every document with
    [likes: 0, dislikes: 0, likers: [], dislikers: []]; the two arrays are
    optional here because [handleVote] reads them as [data[key] || []].
    Counters are JavaScript numbers holding integers.  [parentCommentId] is
    [null] (or absent, on posts) or the id of the comment replied to. *)
Record DocData := mkDoc {
  likers : option (list string);
  dislikers : option (list string);
  likes : Z;
  dislikes : Z;
  parentCommentId : option string;
  content : string
}.

(** [data[likersKey] || []] and [data[dislikersKey] || []]. *)
Definition likersOf (data : DocData) : list string := default [] (likers data).
Definition dislikersOf (data : DocData) : list string := default [] (dislikers data).

(** A document reference: [doc(db, .../posts, id)] or
    [doc(db, .../posts/${postId}/comments, id)]. *)
Inductive DocRef :=
| PostRef (postId : string)
| CommentRef (postId commentId : string).

(** The [posts] collection and the [comments] subcollections, the latter
    keyed by (post id, comment id). *)
Record Store := mkStore {
  posts : gmap string DocData;
  comments : gmap (string * string) DocData
}.

(** The two shapes of object [handleVote] passes to [updateDoc]:
    [{ likers: updatedLikers, likes: newLikes }] and
    [{ dislikers: updatedDislikers, dislikes: newDislikes }]. *)
Inductive FieldUpdate :=
| SetLikers (updatedLikers : list string) (newLikes : Z)
| SetDislikers (updatedDislikers : list string) (newDislikes : Z).

(** Field-level merge of an update object into a document: only the named
    fields change. *)
Definition mergeFields (upd : FieldUpdate) (d : DocData) : DocData :=
  match upd with
  | SetLikers l n =>
      mkDoc (Some l) (dislikers d) n (dislikes d) (parentCommentId d) (content d)
  | SetDislikers l n =>
      mkDoc (likers d) (Some l) (likes d) n (parentCommentId d) (content d)
  end.

Definition getDoc (ref : DocRef) (s : Store) : option DocData :=
  match ref with
  | PostRef p => posts s !! p
  | CommentRef p c => comments s !! (p, c)
  end.

Definition setDoc (ref : DocRef) (d : DocData) (s : Store) : Store :=
  match ref with
  | PostRef p => mkStore (<[p := d]> (posts s)) (comments s)
  | CommentRef p c => mkStore (posts s) (<[(p, c) := d]> (comments s))
  end.

(** [updateDoc(ref, upd)]: merges the fields into the document [ref] names;
    the SDK rejects the call ([None]) when that document does not exist. *)
Definition updateDoc (ref : DocRef) (upd : FieldUpdate) (s : Store) : option Store :=
  match getDoc ref s with
  | Some d => Some (setDoc ref (mergeFields upd d) s)
  | None => None
  end.

(** ** [handleVote] *)

(** How a call of [handleVote] ends: it returns normally after its writes,
    returns after [showModal(msg)], or its promise rejects because an
    [updateDoc] failed. *)
Inductive Outcome :=
| Done
| Modal (msg : string)
| Rejected.

(** [user] is the signed-in user's [uid] ([None] for [null]); [dbReady] says
    whether [db] is non-null. *)
Record Session := mkSession {
  user : option string;
  dbReady : bool
}.

(** Lines 289-337: the [updateDoc] calls, in order, that [handleVote] issues
    once it holds the snapshot [data].  Every value used (the two arrays,
    the two counters, [liked], [disliked]) is fixed by the snapshot. *)
Definition voteWrites (data : DocData) (userId voteType : string) : list FieldUpdate :=
  let likersArr := likersOf data in
  let dislikersArr := dislikersOf data in
  let newLikes := likes data in
  let newDislikes := dislikes data in
  let liked := bool_decide (userId ∈ likersArr) in
  let disliked := bool_decide (userId ∈ dislikersArr) in
  if String.eqb voteType "like" then
    if liked then
      [SetLikers (filter (λ id, id ≠ userId) likersArr) (newLikes - 1)%Z]
    else
      SetLikers (likersArr ++ [userId]) (newLikes + 1)%Z ::
      (if disliked then
         [SetDislikers (filter (λ id, id ≠ userId) dislikersArr) (newDislikes - 1)%Z]
       else [])
  else
    if disliked then
      [SetDislikers (filter (λ id, id ≠ userId) dislikersArr) (newDislikes - 1)%Z]
    else
      SetDislikers (dislikersArr ++ [userId]) (newDislikes + 1)%Z ::
      (if liked then
         [SetLikers (filter (λ id, id ≠ userId) likersArr) (newLikes - 1)%Z]
       else []).

(** Lines 272-274: the reference the writes go to.  A missing [postId]
    defaults to [null], which the template literal prints as the text null. *)
Definition voteRef (target targetId : string) (postId : option string) : DocRef :=
  if String.eqb target "post" then PostRef targetId
  else CommentRef (default "null" postId) targetId.

(** The awaited [updateDoc] calls run one after the other; the first one
    that is rejected ends the call. *)
Fixpoint runWrites (ref : DocRef) (ws : list FieldUpdate) (s : Store) : Store * Outcome :=
  match ws with
  | [] => (s, Done)
  | w :: ws' =>
      match updateDoc ref w s with
      | Some s' => runWrites ref ws' s'
      | None => (s, Rejected)
      end
  end.

(** The stores persisted by those writes, oldest first: what a snapshot
    listener on the document gets to see. *)
Fixpoint writeTrace (ref : DocRef) (ws : list FieldUpdate) (s : Store) : list Store :=
  match ws with
  | [] => []
  | w :: ws' =>
      match updateDoc ref w s with
      | Some s' => s' :: writeTrace ref ws' s'
      | None => []
      end
  end.

(** [handleVote(target, targetId, voteType, postId = null)] run without
    interruption.  The snapshot is queried from the [posts] collection by
    document name [targetId] whatever [target] is (line 281). *)
Definition handleVote (sess : Session) (target targetId voteType : string)
    (postId : option string) (s : Store) : Store * Outcome :=
  match user sess, dbReady sess with
  | Some userId, true =>
      let ref := voteRef target targetId postId in
      match posts s !! targetId with
      | None => (s, Modal "Error: Document not found.")
      | Some data => runWrites ref (voteWrites data userId voteType) s
      end
  | _, _ => (s, Modal "You must be signed in to like or dislike.")
  end.

(** The stores [handleVote] persists, in order. *)
Definition handleVoteTrace (sess : Session) (target targetId voteType : string)
    (postId : option string) (s : Store) : list Store :=
  match user sess, dbReady sess with
  | Some userId, true =>
      match posts s !! targetId with
      | None => []
      | Some data =>
          writeTrace (voteRef target targetId postId)
                     (voteWrites data userId voteType) s
      end
  | _, _ => []
  end.

(** A document after a sequence of update objects has been merged in. *)
Definition mergeAll (d : DocData) (ws : list FieldUpdate) : DocData :=
  foldl (λ d w, mergeFields w d) d ws.

(** The item a vote produces when the document read is the document
    written (a vote on a post): the snapshot with its writes merged in. *)
Definition applyVote (item : DocData) (userId voteType : string) : DocData :=
  mergeAll item (voteWrites item userId voteType).

(** ** Interleaved calls

    [handleVote] is an [async] function: it suspends at [await getDocs(...)]
    and at every [await updateDoc(...)], and other calls may run in between.
    A call in flight is a [Task]; [stepTask] runs it up to its next
    suspension point. *)
Inductive Task :=
| AwaitRead (ref : DocRef) (targetId userId voteType : string)
| AwaitWrite (ref : DocRef) (pending : list FieldUpdate)
| Finished (o : Outcome).

(** Lines 267-281, up to the first [await]. *)
Definition callVote (sess : Session) (target targetId voteType : string)
    (postId : option string) : Task :=
  match user sess, dbReady sess with
  | Some userId, true =>
      AwaitRead (voteRef target targetId postId) targetId userId voteType
  | _, _ => Finished (Modal "You must be signed in to like or dislike.")
  end.

Definition stepTask (t : Task) (s : Store) : Store * Task :=
  match t with
  | AwaitRead ref targetId userId voteType =>
      match posts s !! targetId with
      | None => (s, Finished (Modal "Error: Document not found."))
      | Some data => (s, AwaitWrite ref (voteWrites data userId voteType))
      end
  | AwaitWrite ref [] => (s, Finished Done)
  | AwaitWrite ref (w :: ws) =>
      match updateDoc ref w s with
      | Some s' => (s', AwaitWrite ref ws)
      | None => (s, Finished Rejected)
      end
  | Finished o => (s, Finished o)
  end.

(** The store together with the calls in flight; [resume i] lets call [i]
    run to its next suspension point, and a schedule is the order in which
    the event loop resumes the calls. *)
Definition resume (i : nat) (st : Store * list Task) : Store * list Task :=
  match st.2 !! i with
  | Some t => let '(s', t') := stepTask t st.1 in (s', <[i := t']> st.2)
  | None => st
  end.

Definition runSchedule (sched : list nat) (st : Store * list Task) : Store * list Task :=
  foldl (λ st i, resume i st) st sched.

(** ** Comment nesting (lines 185-193) *)

(** [{ id: commentDoc.id, ...commentDoc.data() }]. *)
Record CommentRecord := mkComment {
  docId : string;
  docData : DocData
}.

(** A top-level comment after [comment.replies = ...] has been assigned.
    The replies are elements of [commentsData] as they are. *)
Record CommentNode := mkNode {
  comment : CommentRecord;
  replies : list CommentRecord
}.

(** JavaScript truthiness of the [parentCommentId] field: [null], a missing
    field and the empty string are falsy. *)
Definition truthy (v : option string) : bool :=
  match v with
  | Some x => negb (String.eqb x "")
  | None => false
  end.

(** [c => !c.parentCommentId]. *)
Definition isTopLevel (c : CommentRecord) : bool :=
  negb (truthy (parentCommentId (docData c))).

(** [c => c.parentCommentId === comment.id]. *)
Definition repliesTo (parent c : CommentRecord) : Prop :=
  parentCommentId (docData c) = Some (docId parent).

#[global] Instance repliesTo_dec parent c : Decision (repliesTo parent c).
Proof. unfold repliesTo. apply _. Defined.

(** [sortedComments] once the [forEach] has run. *)
Definition build (commentsData : list CommentRecord) : list CommentNode :=
  let sortedComments := filter (λ c, isTopLevel c = true) commentsData in
  (λ comment, mkNode comment (filter (repliesTo comment) commentsData))
    <$> sortedComments.

(** ** The vote invariant *)

(** The sets of voters the two arrays stand for. *)
Definition likerSet (d : DocData) : gset string := list_to_set (likersOf d).
Definition dislikerSet (d : DocData) : gset string := list_to_set (dislikersOf d).

(** Each counter is the cardinality of its set and nobody is in both. *)
Record VoteInv (d : DocData) : Prop := mkVoteInv {
  inv_likes : likes d = Z.of_nat (size (likerSet d));
  inv_dislikes : dislikes d = Z.of_nat (size (dislikerSet d));
  inv_exclusive : likerSet d ## dislikerSet d
}.

#[global] Instance VoteInv_dec d : Decision (VoteInv d).
Proof.
  destruct (decide (likes d = Z.of_nat (size (likerSet d)))) as [H1|H1];
    [|right; by intros []].
  destruct (decide (dislikes d = Z.of_nat (size (dislikerSet d)))) as [H2|H2];
    [|right; by intros []].
  destruct (decide (likerSet d ## dislikerSet d)) as [H3|H3];
    [|right; by intros []].
  left. by split.
Defined.

(** A session of a signed-in user. *)
Definition signedIn (userId : string) : Session := mkSession (Some userId) true.

(** Whether the vote changes the user's side: the case in which [handleVote]
    issues a second [updateDoc]. *)
Definition switches (data : DocData) (userId voteType : string) : bool :=
  let liked := bool_decide (userId ∈ likersOf data) in
  let disliked := bool_decide (userId ∈ dislikersOf data) in
  if String.eqb voteType "like" then negb liked && disliked
  else negb disliked && liked.

(** ** Sample data *)

Definition alice : string := "alice".
Definition bob : string := "bob".
Definition carol : string := "carol".

(** A post liked by alice and disliked by bob. *)
Definition samplePost : DocData :=
  mkDoc (Some [alice]) (Some [bob]) 1 1 None "hello".

Definition sampleStore : Store :=
  mkStore {["p1" := samplePost]} ∅.

(** The store after carol's vote of an unknown type on the sample post. *)
Definition afterBogusVote : Store :=
  mkStore {["p1" := mkDoc (Some [alice]) (Some [bob; carol]) 1 2 None "hello"]} ∅.

(** The store in the middle of bob's switch from dislike to like on the
    sample post, and the store at its end. *)
Definition midSwitch : Store :=
  mkStore {["p1" := mkDoc (Some [alice; bob]) (Some [bob]) 2 1 None "hello"]} ∅.
Definition endSwitch : Store :=
  mkStore {["p1" := mkDoc (Some [alice; bob]) (Some []) 2 0 None "hello"]} ∅.

(** A comment c1 under post p1; no post is named c1. *)
Definition sampleComment : DocData :=
  mkDoc (Some []) (Some []) 0 0 None "first".

Definition storeWithComment : Store :=
  mkStore {["p1" := samplePost]} {[("p1", "c1") := sampleComment]}.

(** A post nobody has voted on. *)
Definition freshPost : DocData := mkDoc (Some []) (Some []) 0 0 None "new".

(** The example of the spec, with document ids as strings. *)
Definition rec (i : string) (parent : option string) : CommentRecord :=
  mkComment i (mkDoc (Some []) (Some []) 0 0 parent "text").

Definition exampleRecords : list CommentRecord :=
  [rec "1" None; rec "2" (Some "1"); rec "3" (Some "1"); rec "4" (Some "99")].

(** ** Creating and deleting posts and comments (lines 212-264) *)

(** Text is held as its UTF-8 bytes. *)
Definition utf8 (bytes : list nat) : list Ascii.ascii :=
  Ascii.ascii_of_nat <$> bytes.

(** The characters [String.prototype.trim] strips, the white space and the
    line terminators of ECMAScript, each as its UTF-8 bytes: U+0009 to
    U+000D, U+0020, U+00A0, U+1680, U+2000 to U+200A, U+2028, U+2029,
    U+202F, U+205F, U+3000 and U+FEFF. *)
Definition whiteSpaceCodes : list (list Ascii.ascii) :=
  utf8 <$>
    [[9]; [10]; [11]; [12]; [13]; [32]; [194; 160]; [225; 154; 128];
     [226; 128; 128]; [226; 128; 129]; [226; 128; 130]; [226; 128; 131];
     [226; 128; 132]; [226; 128; 133]; [226; 128; 134]; [226; 128; 135];
     [226; 128; 136]; [226; 128; 137]; [226; 128; 138];
     [226; 128; 168]; [226; 128; 169]; [226; 128; 175]; [226; 129; 159];
     [227; 128; 128]; [239; 187; 191]].

(** What is left of [l] behind the prefix [p], if [l] starts with it. *)
Fixpoint dropPrefix (p l : list Ascii.ascii) : option (list Ascii.ascii) :=
  match p, l with
  | [], _ => Some l
  | a :: p', b :: l' => if decide (a = b) then dropPrefix p' l' else None
  | _ :: _, [] => None
  end.

(** What is left of [l] behind one of the [codes], if it starts with one. *)
Fixpoint stripAny (codes : list (list Ascii.ascii)) (l : list Ascii.ascii)
    : option (list Ascii.ascii) :=
  match codes with
  | [] => None
  | c :: cs =>
      match dropPrefix c l with
      | Some r => Some r
      | None => stripAny cs l
      end
  end.

(** Strips leading [codes] for as long as there is one, at most [fuel]
    times. *)
Fixpoint trimStartWith (codes : list (list Ascii.ascii)) (fuel : nat)
    (l : list Ascii.ascii) : list Ascii.ascii :=
  match fuel with
  | 0 => l
  | S fuel' =>
      match stripAny codes l with
      | Some r => trimStartWith codes fuel' r
      | None => l
      end
  end.

Definition trimStart (l : list Ascii.ascii) : list Ascii.ascii :=
  trimStartWith whiteSpaceCodes (length l) l.

Definition trimEnd (l : list Ascii.ascii) : list Ascii.ascii :=
  reverse (trimStartWith (reverse <$> whiteSpaceCodes) (length l) (reverse l)).

(** [s.trim()]. *)
Definition trim (s : string) : string :=
  String.string_of_list_ascii (trimEnd (trimStart (String.list_ascii_of_string s))).

(** A sequence of [codes], one after the other. *)
Definition concatOf (codes : list (list Ascii.ascii)) (l : list Ascii.ascii) : Prop :=
  ∃ ws, Forall (λ w, w ∈ codes) ws ∧ l = concat ws.

(** Nothing but white space and line terminators, or nothing at all. *)
Definition Blank (s : string) : Prop :=
  concatOf whiteSpaceCodes (String.list_ascii_of_string s).

(** The same as a test. *)
Definition blank (s : string) : bool :=
  bool_decide (trimStart (String.list_ascii_of_string s) = []).

#[global] Instance DocRef_eq_dec : EqDecision DocRef.
Proof. solve_decision. Defined.

(** [addDoc(collection, data)]: the SDK draws a document id, here the id of
    [ref], and stores [data] under it. *)
Definition addDoc (ref : DocRef) (data : DocData) (s : Store) : Store :=
  setDoc ref data s.

(** [deleteDoc(ref)]: removes the document; deleting a document that does
    not exist succeeds and changes nothing.  The comments of a post are
    documents of their own and stay. *)
Definition deleteDoc (ref : DocRef) (s : Store) : Store :=
  match ref with
  | PostRef p => mkStore (delete p (posts s)) (comments s)
  | CommentRef p c => mkStore (posts s) (delete (p, c) (comments s))
  end.

(** The vote fields both [handlePostSubmit] and [handleCommentSubmit] give a
    new document: [likes: 0, dislikes: 0, likers: [], dislikers: []].  The
    fields [userId], [authorName] and [createdAt] they also write are not
    among those [DocData] records. *)
Definition newDoc (parent : option string) (text : string) : DocData :=
  mkDoc (Some []) (Some []) 0 0 parent text.

(** [handlePostSubmit] (lines 212-230), with the [postContent] state before
    the call; the result carries that state after it.  [newId] is the id
    [addDoc] draws. *)
Definition handlePostSubmit (sess : Session) (postContent newId : string)
    (s : Store) : Store * Outcome * string :=
  match user sess, dbReady sess, String.eqb (trim postContent) "" with
  | Some userId, true, false =>
      (addDoc (PostRef newId) (newDoc None postContent) s, Done, "")
  | _, _, _ => (s, Modal "Please write something to post.", postContent)
  end.

(** [handlePostDelete] (lines 232-236). *)
Definition handlePostDelete (sess : Session) (postId : string) (s : Store) : Store :=
  match user sess, dbReady sess with
  | Some userId, true => deleteDoc (PostRef postId) s
  | _, _ => s
  end.

(** [handleCommentSubmit] (lines 238-257), with the text of the form's input
    before the call; the result carries the text left in the input. *)
Definition handleCommentSubmit (sess : Session) (postId : string)
    (parentCommentId : option string) (text newId : string) (s : Store)
    : Store * string :=
  match user sess, dbReady sess with
  | Some userId, true =>
      if String.eqb (trim text) "" then (s, text)
      else (addDoc (CommentRef postId newId) (newDoc parentCommentId text) s, "")
  | _, _ => (s, text)
  end.

(** [handleCommentDelete] (lines 259-263). *)
Definition handleCommentDelete (sess : Session) (postId commentId : string)
    (s : Store) : Store :=
  match user sess, dbReady sess with
  | Some userId, true => deleteDoc (CommentRef postId commentId) s
  | _, _ => s
  end.

(** ** Sequences of handler calls *)

(** One call of a handler, with the id [addDoc] draws where one is drawn. *)
Inductive Action :=
| SubmitPost (sess : Session) (postContent newId : string)
| DeletePost (sess : Session) (postId : string)
| SubmitComment (sess : Session) (postId : string)
    (parentCommentId : option string) (text newId : string)
| DeleteComment (sess : Session) (postId commentId : string)
| Vote (sess : Session) (target targetId voteType : string) (postId : option string).

(** The store after the call has run to its end. *)
Definition perform (a : Action) (s : Store) : Store :=
  match a with
  | SubmitPost sess postContent newId => (handlePostSubmit sess postContent newId s).1.1
  | DeletePost sess postId => handlePostDelete sess postId s
  | SubmitComment sess postId parent text newId =>
      (handleCommentSubmit sess postId parent text newId s).1
  | DeleteComment sess postId commentId => handleCommentDelete sess postId commentId s
  | Vote sess target targetId voteType postId =>
      (handleVote sess target targetId voteType postId s).1
  end.

(** Calls that run one after the other, each to its end. *)
Definition performAll (acts : list Action) (s : Store) : Store :=
  foldl (λ s a, perform a s) s acts.

Definition emptyStore : Store := mkStore ∅ ∅.

(** No post has the id of a comment. *)
Definition idsApart (s : Store) : Prop :=
  ∀ p c, is_Some (comments s !! (p, c)) → posts s !! c = None.

(** [id] names neither a post nor a comment of [s]. *)
Definition unusedId (id : string) (s : Store) : Prop :=
  posts s !! id = None ∧ ∀ p, comments s !! (p, id) = None.

(** Every id drawn along the calls is unused when it is drawn. *)
Fixpoint drawsUnusedIds (acts : list Action) (s : Store) : Prop :=
  match acts with
  | [] => True
  | a :: rest =>
      match a with
      | SubmitPost _ _ newId | SubmitComment _ _ _ _ newId => unusedId newId s
      | _ => True
      end ∧ drawsUnusedIds rest (perform a s)
  end.

(** A document nobody has voted on. *)
Definition unvoted (d : DocData) : Prop :=
  likersOf d = [] ∧ dislikersOf d = [] ∧ likes d = 0%Z ∧ dislikes d = 0%Z.

(** ** Snapshots and rendering *)

(** The comment records [CommentSection] renders for a forest, in order
    (lines 390-451): every top-level comment, each followed by its replies.
    A reply is rendered by the same [renderComment], which goes on to the
    reply's own [replies]; a reply has none unless it is a top-level comment
    as well, which takes a comment with the empty string for its id. *)
Definition shown (forest : list CommentNode) : list CommentRecord :=
  n ← forest; comment n :: replies n.

(** A collection is read in the order of its document ids. *)
Definition idOrder (a b : string * string * DocData) : Prop :=
  String.leb a.1.2 b.1.2 = true.

#[global] Instance idOrder_dec a b : Decision (idOrder a b).
Proof. unfold idOrder. apply _. Defined.

(** [commentsData] (lines 184-188): the documents of the comments collection
    of post [postId], each with its id. *)
Definition commentsSnapshot (postId : string) (s : Store) : list CommentRecord :=
  (λ kd, mkComment kd.1.2 kd.2) <$>
    merge_sort idOrder
      (filter (λ kd, kd.1.1 = postId) (map_to_list (comments s))).

(** ** Signing in (lines 73-152) *)

(** A user as the auth SDK hands it out; [displayName] may be [null]. *)
Record AuthUser := mkAuthUser {
  uid : string;
  displayName : option string
}.

(** A document of the users collection, without its [createdAt]. *)
Record UserDoc := mkUserDoc {
  userUid : string;
  userDisplayName : option string;
  isBanned : bool
}.

(** The users collection and [auth.currentUser]. *)
Record Backend := mkBackend {
  users : gmap string UserDoc;
  currentUser : option AuthUser
}.

(** The component state the sign-in code sets. *)
Record AppState := mkApp {
  appUser : option AuthUser;
  isAuthReady : bool;
  loading : bool;
  modalMessage : string;
  isModalOpen : bool
}.

Definition showModal (message : string) (app : AppState) : AppState :=
  mkApp (appUser app) (isAuthReady app) (loading app) message true.

Definition closeModal (app : AppState) : AppState :=
  mkApp (appUser app) (isAuthReady app) (loading app) "" false.

Definition setUser (u : option AuthUser) (app : AppState) : AppState :=
  mkApp u (isAuthReady app) (loading app) (modalMessage app) (isModalOpen app).

Definition keyOrder (a b : string * UserDoc) : Prop :=
  String.leb a.1 b.1 = true.

#[global] Instance keyOrder_dec a b : Decision (keyOrder a b).
Proof. unfold keyOrder. apply _. Defined.

(** [getDocs(query(collection(users), where('uid', '==', uid)))]: the
    documents whose [uid] field is [uid], in the order of their ids. *)
Definition usersWhereUid (uid : string) (coll : gmap string UserDoc) : list UserDoc :=
  snd <$> filter (λ kd, userUid kd.2 = uid) (merge_sort keyOrder (map_to_list coll)).

(** The SDK call, if any, that throws during a run of the sign-in code. *)
Inductive Fault :=
| NoFault
| GetDocsFails
| SignOutFails
| SetDocFails.

(** [{ uid, displayName, isBanned: false, createdAt }]. *)
Definition newUserDoc (u : AuthUser) : UserDoc :=
  mkUserDoc (uid u) (displayName u) false.

(** The [try] block of the auth state listener and its [catch]
    (lines 119-146), for a signed-in [cu]. *)
Definition authListenerBody (fault : Fault) (cu : AuthUser) (b : Backend)
    (app : AppState) : Backend * AppState :=
  let caught :=
    (b, setUser None (showModal "Error fetching user data. Please try again." app)) in
  match fault with
  | GetDocsFails => caught
  | _ =>
      match usersWhereUid (uid cu) (users b) with
      | userDoc :: _ =>
          if isBanned userDoc then
            match fault with
            | SignOutFails => caught
            | _ =>
                (mkBackend (users b) None,
                 setUser None
                   (showModal "Your account has been banned. You have been signed out." app))
            end
          else
            (b, setUser (Some (mkAuthUser (uid cu) (userDisplayName userDoc))) app)
      | [] =>
          match fault with
          | SetDocFails => caught
          | _ =>
              (mkBackend (<[uid cu := newUserDoc cu]> (users b)) (currentUser b),
               setUser (Some cu) app)
          end
      end
  end.

(** The callback given to [onAuthStateChanged] (lines 116-152), called with
    the user the SDK reports. *)
Definition onAuthStateChanged (fault : Fault) (reported : option AuthUser)
    (b : Backend) (app : AppState) : Backend * AppState :=
  let r :=
    match reported with
    | Some cu => authListenerBody fault cu b app
    | None => (b, setUser None app)
    end in
  (r.1, mkApp (appUser r.2) true false (modalMessage r.2) (isModalOpen r.2)).

(** [handleGoogleSignIn] (lines 73-99).  [authReady] says whether [auth] is
    non-null; [popup] is the user [signInWithPopup] resolves to, [None] when
    it throws. *)
Definition handleGoogleSignIn (authReady : bool) (popup : option AuthUser)
    (fault : Fault) (b : Backend) (app : AppState) : Backend * AppState :=
  let failed :=
    showModal "Failed to sign in with Google. Check the console for details." app in
  if negb authReady then (b, showModal "Firebase Auth is not initialized." app)
  else
    match popup with
    | None => (b, failed)
    | Some u =>
        let signed := mkBackend (users b) (Some u) in
        match fault with
        | GetDocsFails => (signed, failed)
        | _ =>
            match usersWhereUid (uid u) (users b) with
            | [] =>
                match fault with
                | SetDocFails => (signed, failed)
                | _ => (mkBackend (<[uid u := newUserDoc u]> (users b)) (Some u), app)
                end
            | _ :: _ => (signed, app)
            end
        end
    end.

(** [handleSignOut] (lines 101-107). *)
Definition handleSignOut (authReady : bool) (b : Backend) (app : AppState)
    : Backend * AppState :=
  if authReady then
    (mkBackend (users b) None, showModal "You have been signed out." (setUser None app))
  else (b, app).

(** The session the handlers see: [user] is the component state, [db] the
    module constant. *)
Definition sessionOf (app : AppState) (db : bool) : Session :=
  mkSession (uid <$> appUser app) db.

(** The session a call is made in. *)
Definition actionSession (a : Action) : Session :=
  match a with
  | SubmitPost sess _ _ | DeletePost sess _ | SubmitComment sess _ _ _ _
  | DeleteComment sess _ _ | Vote sess _ _ _ _ => sess
  end.

(** Every user document is stored under its own [uid], as the sign-in code
    writes it. *)
Definition keyedByUid (coll : gmap string UserDoc) : Prop :=
  ∀ k d, coll !! k = Some d → userUid d = k.

(** A thread of three: comment 1, a reply 2 to it, a reply 3 to the reply. *)
Definition threadRecords : list CommentRecord :=
  [rec "1" None; rec "2" (Some "1"); rec "3" (Some "2")].

(** A post with a comment c1 and a reply c2 to it. *)
Definition storeWithReply : Store :=
  mkStore {["p1" := samplePost]}
    (<[("p1", "c2") := newDoc (Some "c1") "second"]>
       {[("p1", "c1") := sampleComment]}).

(** A users collection with one banned user, who is signed in. *)
Definition bannedBackend : Backend :=
  mkBackend {["u1" := mkUserDoc "u1" (Some "Mallory") true]}
            (Some (mkAuthUser "u1" (Some "Mallory"))).

(** The component state before the first auth event. *)
Definition startApp : AppState := mkApp None false true "" false.

(** ** Arrays as sets *)

Section ArraySets.
Implicit Types (l : list string) (u : string) (X : gset string).

Lemma list_to_set_without l u :
  list_to_set (C := gset string) (filter (λ id, id ≠ u) l) = list_to_set l ∖ {[u]}.
Proof.
  apply set_eq; intros x.
  rewrite elem_of_difference, !elem_of_list_to_set, list_elem_of_filter.
  set_solver.
Qed.

Lemma list_to_set_snoc l u :
  list_to_set (C := gset string) (l ++ [u]) = list_to_set l ∪ {[u]}.
Proof. rewrite list_to_set_app_L. simpl. set_solver. Qed.

Lemma size_without X u :
  u ∈ X → Z.of_nat (size (X ∖ {[u]})) = (Z.of_nat (size X) - 1)%Z.
Proof.
  intros Hin.
  assert (size X = S (size (X ∖ {[u]}))) as ->; [|lia].
  rewrite (union_difference_L {[u]} X) at 1 by set_solver.
  rewrite size_union by set_solver.
  by rewrite size_singleton.
Qed.

Lemma size_with X u :
  u ∉ X → Z.of_nat (size (X ∪ {[u]})) = (Z.of_nat (size X) + 1)%Z.
Proof.
  intros Hout. rewrite size_union by set_solver.
  rewrite size_singleton. lia.
Qed.

Lemma filter_ne_absent l u : u ∉ l → filter (λ id, id ≠ u) l = l.
Proof.
  intros Hout. induction l as [|x l IH]; [done|].
  apply not_elem_of_cons in Hout as [Hne Hout].
  rewrite filter_cons_True by done. by rewrite IH.
Qed.

Lemma filter_ne_snoc l u : u ∉ l → filter (λ id, id ≠ u) (l ++ [u]) = l.
Proof.
  intros Hout. rewrite filter_app, filter_ne_absent by done.
  rewrite filter_cons_False by (intros H; by apply H).
  by rewrite filter_nil, app_nil_r.
Qed.
End ArraySets.

Ltac vote_sets :=
  unfold likerSet, dislikerSet, likersOf, dislikersOf in *; simpl in *;
  fold likersOf dislikersOf in *;
  repeat first [rewrite list_to_set_without | rewrite list_to_set_snoc].

(** ** [applyVote] case by case *)

Section ApplyVoteCases.
Variables (d : DocData) (u : string).

Lemma applyVote_like_retract :
  u ∈ likersOf d →
  applyVote d u "like" =
    mkDoc (Some (filter (λ id, id ≠ u) (likersOf d))) (dislikers d)
          (likes d - 1) (dislikes d) (parentCommentId d) (content d).
Proof.
  intros Hin. unfold applyVote, voteWrites. simpl.
  by rewrite bool_decide_eq_true_2.
Qed.

Lemma applyVote_like_fresh :
  u ∉ likersOf d → u ∉ dislikersOf d →
  applyVote d u "like" =
    mkDoc (Some (likersOf d ++ [u])) (dislikers d)
          (likes d + 1) (dislikes d) (parentCommentId d) (content d).
Proof.
  intros Hl Hd. unfold applyVote, voteWrites. simpl.
  by rewrite !bool_decide_eq_false_2.
Qed.

Lemma applyVote_like_switch :
  u ∉ likersOf d → u ∈ dislikersOf d →
  applyVote d u "like" =
    mkDoc (Some (likersOf d ++ [u]))
          (Some (filter (λ id, id ≠ u) (dislikersOf d)))
          (likes d + 1) (dislikes d - 1) (parentCommentId d) (content d).
Proof.
  intros Hl Hd. unfold applyVote, voteWrites. simpl.
  by rewrite bool_decide_eq_false_2, bool_decide_eq_true_2.
Qed.

(** Every [voteType] other than the text like takes the [else] branch. *)
Lemma applyVote_dislike_retract vt :
  vt ≠ "like" → u ∈ dislikersOf d →
  applyVote d u vt =
    mkDoc (likers d) (Some (filter (λ id, id ≠ u) (dislikersOf d)))
          (likes d) (dislikes d - 1) (parentCommentId d) (content d).
Proof.
  intros Hvt Hin. unfold applyVote, voteWrites.
  apply String.eqb_neq in Hvt. rewrite Hvt.
  by rewrite bool_decide_eq_true_2.
Qed.

Lemma applyVote_dislike_fresh vt :
  vt ≠ "like" → u ∉ dislikersOf d → u ∉ likersOf d →
  applyVote d u vt =
    mkDoc (likers d) (Some (dislikersOf d ++ [u]))
          (likes d) (dislikes d + 1) (parentCommentId d) (content d).
Proof.
  intros Hvt Hd Hl. unfold applyVote, voteWrites.
  apply String.eqb_neq in Hvt. rewrite Hvt.
  by rewrite !bool_decide_eq_false_2.
Qed.

Lemma applyVote_dislike_switch vt :
  vt ≠ "like" → u ∉ dislikersOf d → u ∈ likersOf d →
  applyVote d u vt =
    mkDoc (Some (filter (λ id, id ≠ u) (likersOf d)))
          (Some (dislikersOf d ++ [u]))
          (likes d - 1) (dislikes d + 1) (parentCommentId d) (content d).
Proof.
  intros Hvt Hd Hl. unfold applyVote, voteWrites.
  apply String.eqb_neq in Hvt. rewrite Hvt.
  by rewrite bool_decide_eq_false_2, bool_decide_eq_true_2.
Qed.
End ApplyVoteCases.

(** ** Votes on posts: the store realises [applyVote] *)

Lemma getDoc_setDoc ref d s : getDoc ref (setDoc ref d s) = Some d.
Proof. destruct ref; simpl; apply lookup_insert_eq. Qed.

Lemma setDoc_setDoc ref d1 d2 s : setDoc ref d2 (setDoc ref d1 s) = setDoc ref d2 s.
Proof. destruct ref; simpl; by rewrite insert_insert_eq. Qed.

Lemma setDoc_same ref d s : getDoc ref s = Some d → setDoc ref d s = s.
Proof. destruct ref, s; simpl; intros H; by rewrite insert_id. Qed.

(** When the document written exists, every write goes through. *)
Lemma runWrites_present ref ws : ∀ s d,
  getDoc ref s = Some d →
  runWrites ref ws s = (setDoc ref (mergeAll d ws) s, Done).
Proof.
  induction ws as [|w ws IH]; intros s d Hd; simpl.
  - by rewrite setDoc_same.
  - unfold updateDoc. rewrite Hd.
    rewrite (IH _ (mergeFields w d)) by apply getDoc_setDoc.
    by rewrite setDoc_setDoc.
Qed.

(** When it does not, the first write is rejected and nothing is stored. *)
Lemma runWrites_absent ref w ws s :
  getDoc ref s = None → runWrites ref (w :: ws) s = (s, Rejected).
Proof. intros Hd. simpl. unfold updateDoc. by rewrite Hd. Qed.

Lemma voteWrites_cons data userId voteType :
  ∃ w ws, voteWrites data userId voteType = w :: ws.
Proof.
  unfold voteWrites.
  destruct (String.eqb voteType "like"); repeat case_bool_decide; eauto.
Qed.

(** A signed-in user's vote on an existing post returns normally and
    leaves the post holding [applyVote] of what it held. *)
Lemma handleVote_post userId pid voteType postId s d :
  posts s !! pid = Some d →
  handleVote (signedIn userId) "post" pid voteType postId s =
    (mkStore (<[pid := applyVote d userId voteType]> (posts s)) (comments s), Done).
Proof.
  intros Hd. unfold handleVote, voteRef. simpl. rewrite Hd.
  by rewrite (runWrites_present _ _ _ d).
Qed.

Lemma VoteInv_applyVote d u vt : VoteInv d → VoteInv (applyVote d u vt).
Proof.
  intros [Hl Hd Hx].
  assert (Hin : ∀ x l, x ∈ l ↔ x ∈ (list_to_set l : gset string))
    by (intros; by rewrite elem_of_list_to_set).
  destruct (decide (vt = "like")) as [->|Hvt];
    destruct (decide (u ∈ likersOf d)) as [Hul|Hul];
    destruct (decide (u ∈ dislikersOf d)) as [Hud|Hud];
    first [ rewrite applyVote_like_retract by done
          | rewrite applyVote_like_fresh by done
          | rewrite applyVote_like_switch by done
          | rewrite applyVote_dislike_retract by done
          | rewrite applyVote_dislike_fresh by done
          | rewrite applyVote_dislike_switch by done ];
    apply Hin in Hul || rewrite Hin in Hul;
    apply Hin in Hud || rewrite Hin in Hud;
    (split; vote_sets;
     [ first [rewrite size_without by done | rewrite size_with by done | idtac]; lia
     | first [rewrite size_without by done | rewrite size_with by done | idtac]; lia
     | set_solver ]).
Qed.

Lemma samplePost_inv : VoteInv samplePost.
Proof. split; [reflexivity | reflexivity | vote_sets; set_solver]. Defined.

(** Carol likes the sample post; bob, who had disliked it, likes it. *)
Example handleVote_fresh_like :
  handleVote (signedIn carol) "post" "p1" "like" None sampleStore
  = (mkStore {["p1" := mkDoc (Some [alice; carol]) (Some [bob]) 2 1 None "hello"]} ∅,
     Done).
Proof. vm_compute. reflexivity. Qed.

Example handleVote_switch_like :
  handleVote (signedIn bob) "post" "p1" "like" None sampleStore = (endSwitch, Done).
Proof. vm_compute. reflexivity. Qed.

(** Nobody is signed in: the message box, and no write. *)
Example handleVote_signed_out :
  handleVote (mkSession None true) "post" "p1" "like" None sampleStore
  = (sampleStore, Modal "You must be signed in to like or dislike.").
Proof. reflexivity. Qed.

(** ** Vote laws *)

(** C1: a vote on an item that satisfies the invariant (each counter is the
    cardinality of its voter set, nobody is in both sets) yields an item that
    satisfies it again, whatever the user and the vote type; and a vote on a
    post stores exactly that item. *)
Theorem applyVote_preserves_invariant item userId voteType :
  VoteInv item →
  VoteInv (applyVote item userId voteType) ∧
  ∀ s pid postId, posts s !! pid = Some item →
    handleVote (signedIn userId) "post" pid voteType postId s =
      (mkStore (<[pid := applyVote item userId voteType]> (posts s)) (comments s), Done).
Proof.
  intros Hinv. split.
  - by apply VoteInv_applyVote.
  - intros s pid postId Hs. by apply handleVote_post.
Qed.

Lemma applyVote_preserves_invariant_witness :
  VoteInv samplePost ∧ VoteInv (applyVote samplePost carol "like").
Proof.
  split; [exact samplePost_inv|].
  exact (proj1 (applyVote_preserves_invariant samplePost carol "like" samplePost_inv)).
Defined.

(** C3 (switching law): when [u] has upvoted and not downvoted, a down vote
    by [u] leaves [u] in the downvoters only, with the up count one lower
    and the down count one higher. *)
Theorem applyVote_switch_to_down item u :
  u ∈ likersOf item → u ∉ dislikersOf item →
  let item' := applyVote item u "dislike" in
  u ∈ dislikersOf item' ∧ (u ∉ likersOf item') ∧
  likes item' = (likes item - 1)%Z ∧ dislikes item' = (dislikes item + 1)%Z.
Proof.
  intros Hl Hd. simpl. rewrite applyVote_dislike_switch by done.
  unfold dislikersOf, likersOf. simpl. fold (likersOf item) (dislikersOf item).
  split_and!; [set_solver | | done | done].
  rewrite list_elem_of_filter. naive_solver.
Qed.

Lemma applyVote_switch_to_down_witness :
  alice ∈ likersOf samplePost ∧ (alice ∉ dislikersOf samplePost) ∧
  dislikersOf (applyVote samplePost alice "dislike") = [bob; alice] ∧
  likes (applyVote samplePost alice "dislike") = 0%Z.
Proof.
  assert (Hl : alice ∈ likersOf samplePost) by compute_done.
  assert (Hd : alice ∉ dislikersOf samplePost) by compute_done.
  pose proof (applyVote_switch_to_down samplePost alice Hl Hd) as H.
  split_and!; [exact Hl | exact Hd | reflexivity | ].
  destruct H as (_ & _ & -> & _). reflexivity.
Defined.

(** C4 (toggle twice), as the code has it: two successive up votes by [u]
    give back the same like count and the same set of likers; the likers
    array itself is unchanged when [u] had not liked, and is the array
    without [u] followed by [u] when [u] had.  For a [u] who is not among
    the dislikers the dislikers array and the dislike count are untouched as
    well, so the two votes cancel; for a [u] who is, the result has [u]
    taken out of the dislikers and a dislike count one lower.  The other
    fields stay. *)
Theorem applyVote_like_twice item u :
  let item2 := applyVote (applyVote item u "like") u "like" in
  likes item2 = likes item ∧
  likerSet item2 = likerSet item ∧
  (u ∉ likersOf item → likersOf item2 = likersOf item) ∧
  (u ∈ likersOf item →
     likersOf item2 = filter (λ id, id ≠ u) (likersOf item) ++ [u]) ∧
  (u ∉ dislikersOf item →
     dislikers item2 = dislikers item ∧ dislikes item2 = dislikes item) ∧
  (u ∈ dislikersOf item →
     dislikersOf item2 = filter (λ id, id ≠ u) (dislikersOf item) ∧
     dislikes item2 = (dislikes item - 1)%Z) ∧
  parentCommentId item2 = parentCommentId item ∧
  content item2 = content item.
Proof.
  simpl.
  assert (Hf : ∀ l : list string, u ∉ filter (λ id, id ≠ u) l).
  { intros l. rewrite list_elem_of_filter. naive_solver. }
  destruct (decide (u ∈ likersOf item)) as [Hl|Hl];
    destruct (decide (u ∈ dislikersOf item)) as [Hd|Hd].
  - (* liked and disliked: the like is retracted, then the vote switched *)
    rewrite (applyVote_like_retract item u Hl).
    rewrite applyVote_like_switch by (unfold likersOf, dislikersOf; simpl; done).
    assert (u ∈ likerSet item) by (by apply elem_of_list_to_set).
    vote_sets. split_and!; try done; try lia.
    rewrite difference_union_L. set_solver.
  - (* liked only: the like is retracted, then cast again *)
    rewrite (applyVote_like_retract item u Hl).
    rewrite applyVote_like_fresh by (unfold likersOf, dislikersOf; simpl; done).
    assert (u ∈ likerSet item) by (by apply elem_of_list_to_set).
    vote_sets. split_and!; try done; try lia.
    rewrite difference_union_L. set_solver.
  - (* disliked only: the vote is switched, then the like retracted *)
    rewrite (applyVote_like_switch item u Hl Hd).
    rewrite applyVote_like_retract by (unfold likersOf; simpl; set_solver).
    unfold likerSet, likersOf, dislikersOf. simpl.
    fold (likersOf item) (dislikersOf item).
    rewrite filter_ne_snoc by done.
    split_and!; try done; lia.
  - (* not voted: the like is cast, then retracted *)
    rewrite (applyVote_like_fresh item u Hl Hd).
    rewrite applyVote_like_retract by (unfold likersOf; simpl; set_solver).
    unfold likerSet, likersOf, dislikersOf. simpl.
    fold (likersOf item) (dislikersOf item).
    rewrite filter_ne_snoc by done.
    split_and!; try done; lia.
Qed.

Lemma applyVote_like_twice_witness :
  alice ∈ likersOf samplePost ∧ (alice ∉ dislikersOf samplePost) ∧
  likersOf (applyVote (applyVote samplePost alice "like") alice "like") = [alice] ∧
  dislikers (applyVote (applyVote samplePost alice "like") alice "like")
    = dislikers samplePost.
Proof.
  assert (Hl : alice ∈ likersOf samplePost) by compute_done.
  assert (Hd : alice ∉ dislikersOf samplePost) by compute_done.
  destruct (applyVote_like_twice samplePost alice)
    as (_ & _ & _ & Hmoved & Hkept & _).
  split_and!; [exact Hl | exact Hd | | exact (proj1 (Hkept Hd))].
  rewrite (Hmoved Hl). reflexivity.
Defined.

(** C4 as the spec words it fails for a user who had downvoted: the first
    up vote switches the vote, the second retracts it, and the down vote is
    gone. *)
Lemma applyVote_like_twice_counterexample :
  VoteInv samplePost ∧
  applyVote (applyVote samplePost bob "like") bob "like" =
    mkDoc (Some [alice]) (Some []) 1 0 None "hello" ∧
  applyVote (applyVote samplePost bob "like") bob "like" ≠ samplePost ∧
  dislikerSet (applyVote (applyVote samplePost bob "like") bob "like")
    ≠ dislikerSet samplePost.
Proof.
  split_and!; [exact samplePost_inv | reflexivity | discriminate | ].
  intros H. assert (bob ∈ dislikerSet samplePost) as Hin by (vote_sets; set_solver).
  rewrite <- H in Hin. revert Hin. vote_sets. set_solver.
Qed.

(** ** Vote types, failures and persisted states *)

(** C8 as the spec words it fails: a vote type outside like / dislike is not
    refused; the call returns normally and has stored a dislike. *)
Lemma handleVote_unknown_voteType_counterexample :
  handleVote (signedIn carol) "post" "p1" "bogus" None sampleStore
    = (afterBogusVote, Done) ∧
  afterBogusVote ≠ sampleStore.
Proof.
  split.
  - rewrite (handleVote_post carol "p1" "bogus" None sampleStore samplePost)
      by reflexivity.
    unfold afterBogusVote, sampleStore. simpl.
    by rewrite insert_singleton_eq.
  - intros H. apply (f_equal (λ s, posts s !! "p1")) in H.
    unfold afterBogusVote, sampleStore in H. simpl in H.
    rewrite !lookup_singleton_eq in H. discriminate.
Qed.

(** C8, as the code has it: no vote type is refused.  Every vote type
    other than like is handled exactly as dislike, with the same writes and
    the same outcome; on an existing post a signed-in user's call with such
    a vote type returns normally and has stored the dislike update. *)
Theorem handleVote_voteType_not_validated sess target targetId voteType postId s :
  voteType ≠ "like" →
  handleVote sess target targetId voteType postId s
    = handleVote sess target targetId "dislike" postId s ∧
  handleVoteTrace sess target targetId voteType postId s
    = handleVoteTrace sess target targetId "dislike" postId s ∧
  (∀ userId pid d p, posts s !! pid = Some d →
     handleVote (signedIn userId) "post" pid voteType p s
       = (mkStore (<[pid := applyVote d userId "dislike"]> (posts s)) (comments s),
          Done)).
Proof.
  intros Hvt.
  assert (Hws : ∀ data userId,
            voteWrites data userId voteType = voteWrites data userId "dislike").
  { intros data userId. unfold voteWrites.
    apply String.eqb_neq in Hvt. by rewrite Hvt. }
  split_and!.
  - unfold handleVote.
    destruct (user sess), (dbReady sess), (posts s !! targetId); try done.
    by rewrite Hws.
  - unfold handleVoteTrace.
    destruct (user sess), (dbReady sess), (posts s !! targetId); try done.
    by rewrite Hws.
  - intros userId pid d p Hd.
    rewrite (handleVote_post userId pid voteType p s d Hd).
    unfold applyVote. by rewrite Hws.
Qed.

Lemma handleVote_voteType_not_validated_witness :
  "bogus" ≠ "like" ∧
  handleVote (signedIn carol) "post" "p1" "bogus" None sampleStore
    = handleVote (signedIn carol) "post" "p1" "dislike" None sampleStore.
Proof.
  assert (Hne : "bogus" ≠ "like") by discriminate.
  split; [exact Hne|].
  exact (proj1 (handleVote_voteType_not_validated
                  (signedIn carol) "post" "p1" "bogus" None sampleStore Hne)).
Defined.

Lemma writeTrace_cons ref w ws s d :
  getDoc ref s = Some d →
  writeTrace ref (w :: ws) s =
    setDoc ref (mergeFields w d) s :: writeTrace ref ws (setDoc ref (mergeFields w d) s).
Proof. intros Hd. simpl. unfold updateDoc. by rewrite Hd. Qed.

(** One write when the vote does not switch sides, two when it does. *)
Lemma voteWrites_shape data userId voteType :
  if switches data userId voteType
  then ∃ w1 w2, voteWrites data userId voteType = [w1; w2]
  else ∃ w, voteWrites data userId voteType = [w].
Proof.
  unfold switches, voteWrites.
  destruct (String.eqb voteType "like"); repeat case_bool_decide; simpl; eauto.
Qed.

(** Between the two writes of a switching vote the user is in both arrays
    and one counter has gone up while the other has not yet gone down. *)
Lemma voteWrites_switch_first data userId voteType w1 w2 :
  switches data userId voteType = true →
  voteWrites data userId voteType = [w1; w2] →
  let mid := mergeFields w1 data in
  userId ∈ likersOf mid ∧ userId ∈ dislikersOf mid ∧
  (likes mid + dislikes mid = likes data + dislikes data + 1)%Z.
Proof.
  unfold switches, voteWrites.
  destruct (String.eqb voteType "like"); repeat case_bool_decide; simpl;
    try discriminate; intros _ [= <- <-]; simpl;
    (split_and!; [ | | lia]);
    unfold likersOf, dislikersOf in *; simpl; set_solver.
Qed.

(** C9 as the spec words it fails: bob's switch from dislike to like is
    persisted in two steps, and the first persisted store is neither the
    old state nor the new one: bob is in both arrays and the invariant is
    broken. *)
Lemma handleVote_not_atomic_counterexample :
  handleVoteTrace (signedIn bob) "post" "p1" "like" None sampleStore
    = [midSwitch; endSwitch] ∧
  handleVote (signedIn bob) "post" "p1" "like" None sampleStore
    = (endSwitch, Done) ∧
  midSwitch ≠ sampleStore ∧ midSwitch ≠ endSwitch ∧
  posts midSwitch !! "p1"
    = Some (mkDoc (Some [alice; bob]) (Some [bob]) 2 1 None "hello") ∧
  ¬ VoteInv (mkDoc (Some [alice; bob]) (Some [bob]) 2 1 None "hello").
Proof.
  assert (Hne : ∀ d1 d2 : DocData, d1 ≠ d2 →
            mkStore {["p1" := d1]} ∅ ≠ mkStore {["p1" := d2]} ∅).
  { intros d1 d2 Hd H. apply (f_equal (λ s, posts s !! "p1")) in H.
    simpl in H. rewrite !lookup_singleton_eq in H. congruence. }
  split_and!.
  - unfold handleVoteTrace, sampleStore. simpl.
    rewrite lookup_singleton_eq.
    change (voteWrites samplePost bob "like")
      with [SetLikers [alice; bob] 2; SetDislikers [] 0].
    rewrite (writeTrace_cons _ _ _ _ samplePost) by apply lookup_singleton_eq.
    simpl setDoc. rewrite insert_singleton_eq.
    erewrite writeTrace_cons by apply lookup_singleton_eq.
    simpl. by rewrite insert_singleton_eq.
  - rewrite (handleVote_post bob "p1" "like" None sampleStore samplePost)
      by reflexivity.
    unfold endSwitch, sampleStore. simpl. by rewrite insert_singleton_eq.
  - apply Hne. discriminate.
  - apply Hne. discriminate.
  - reflexivity.
  - intros [_ _ Hx]. apply (Hx bob); vote_sets; set_solver.
Qed.

(** C9, as the code has it: a vote on an existing post that does not switch
    sides is persisted by one write, which stores the fully updated item; a
    vote that switches sides is persisted by two writes, the store between
    them holds the user in both arrays with only one counter changed, and
    the second write stores the fully updated item. *)
Theorem handleVote_persisted_states userId pid voteType postId s d :
  posts s !! pid = Some d →
  let final := mkStore (<[pid := applyVote d userId voteType]> (posts s)) (comments s) in
  handleVote (signedIn userId) "post" pid voteType postId s = (final, Done) ∧
  if switches d userId voteType then
    ∃ mid dmid,
      handleVoteTrace (signedIn userId) "post" pid voteType postId s = [mid; final] ∧
      posts mid !! pid = Some dmid ∧
      userId ∈ likersOf dmid ∧ userId ∈ dislikersOf dmid ∧
      (likes dmid + dislikes dmid = likes d + dislikes d + 1)%Z
  else
    handleVoteTrace (signedIn userId) "post" pid voteType postId s = [final].
Proof.
  intros Hd. split; [by apply handleVote_post|].
  unfold handleVoteTrace, voteRef, applyVote. simpl. rewrite Hd.
  pose proof (voteWrites_shape d userId voteType) as Hshape.
  destruct (switches d userId voteType) eqn:Hsw.
  - destruct Hshape as (w1 & w2 & Hws).
    destruct (voteWrites_switch_first d userId voteType w1 w2 Hsw Hws)
      as (Hl & Hdl & Hsum).
    rewrite Hws.
    exists (setDoc (PostRef pid) (mergeFields w1 d) s), (mergeFields w1 d).
    split_and!; try done.
    + rewrite (writeTrace_cons _ _ _ _ d) by done.
      erewrite writeTrace_cons by apply getDoc_setDoc.
      simpl. by rewrite insert_insert_eq.
    + simpl. apply lookup_insert_eq.
  - destruct Hshape as (w & Hws). rewrite Hws.
    by rewrite (writeTrace_cons _ _ _ _ d).
Qed.

Lemma handleVote_persisted_states_witness :
  posts sampleStore !! "p1" = Some samplePost ∧
  handleVote (signedIn bob) "post" "p1" "like" None sampleStore
    = (mkStore (<["p1" := applyVote samplePost bob "like"]> (posts sampleStore))
               (comments sampleStore), Done).
Proof.
  assert (Hd : posts sampleStore !! "p1" = Some samplePost) by reflexivity.
  split; [exact Hd|].
  exact (proj1 (handleVote_persisted_states bob "p1" "like" None
                  sampleStore samplePost Hd)).
Defined.

(** ** Votes on comments *)

(** C10: for a vote whose target is not a post (the comment buttons pass
    the text comment), the snapshot is looked up in the posts collection
    under the comment's id.  If no post has that id the call ends in the
    message box [Error: Document not found.] and nothing is written; if one
    has, the writes are those computed from that post's fields, and they are
    sent to the comment's document. *)
Theorem handleVote_comment_reads_posts userId target targetId voteType postId s :
  target ≠ "post" →
  let ref := CommentRef (default "null" postId) targetId in
  match posts s !! targetId with
  | None =>
      handleVote (signedIn userId) target targetId voteType postId s
        = (s, Modal "Error: Document not found.") ∧
      handleVoteTrace (signedIn userId) target targetId voteType postId s = []
  | Some p =>
      handleVote (signedIn userId) target targetId voteType postId s
        = runWrites ref (voteWrites p userId voteType) s ∧
      ∀ c, getDoc ref s = Some c →
        handleVote (signedIn userId) target targetId voteType postId s
          = (setDoc ref (mergeAll c (voteWrites p userId voteType)) s, Done)
  end.
Proof.
  intros Ht. apply String.eqb_neq in Ht.
  unfold handleVote, handleVoteTrace, voteRef. simpl. rewrite Ht.
  destruct (posts s !! targetId) as [p|]; [|done].
  split; [done|]. intros c Hc.
  by rewrite (runWrites_present (CommentRef (default "null" postId) targetId)
                _ s c Hc).
Qed.

Lemma handleVote_comment_reads_posts_witness :
  "comment" ≠ "post" ∧
  handleVote (signedIn carol) "comment" "c1" "like" (Some "p1") storeWithComment
    = (storeWithComment, Modal "Error: Document not found.").
Proof.
  assert (Hne : "comment" ≠ "post") by discriminate.
  split; [exact Hne|].
  exact (proj1 (handleVote_comment_reads_posts carol "comment" "c1" "like"
                  (Some "p1") storeWithComment Hne)).
Defined.

(** When a post does carry the comment's id, the comment receives the
    post's voters and counts: here comment x1, which nobody has voted on,
    is liked by carol and ends up with alice among its likers and a like
    count of 2, taken from post x1. *)
Example handleVote_comment_collision :
  handleVote (signedIn carol) "comment" "x1" "like" (Some "p1")
    (mkStore {["x1" := samplePost]} {[("p1", "x1") := sampleComment]})
  = (mkStore {["x1" := samplePost]}
       {[("p1", "x1") := mkDoc (Some [alice; carol]) (Some []) 2 0 None "first"]},
     Done).
Proof.
  unfold handleVote. simpl. rewrite lookup_singleton_eq.
  erewrite runWrites_present by (simpl; apply lookup_singleton_eq).
  simpl. by rewrite insert_singleton_eq.
Qed.

(** ** Two calls in flight *)

Lemma resume_0 s t ts :
  resume 0 (s, t :: ts) = ((stepTask t s).1, (stepTask t s).2 :: ts).
Proof. unfold resume. simpl. by destruct (stepTask t s). Qed.

Lemma resume_1 s t0 t ts :
  resume 1 (s, t0 :: t :: ts) = ((stepTask t s).1, t0 :: (stepTask t s).2 :: ts).
Proof. unfold resume. simpl. by destruct (stepTask t s). Qed.

Lemma stepTask_read ref pid u vt s d :
  posts s !! pid = Some d →
  stepTask (AwaitRead ref pid u vt) s = (s, AwaitWrite ref (voteWrites d u vt)).
Proof. intros Hd. simpl. by rewrite Hd. Qed.

Lemma stepTask_write pid w ws s d :
  posts s !! pid = Some d →
  stepTask (AwaitWrite (PostRef pid) (w :: ws)) s =
    (mkStore (<[pid := mergeFields w d]> (posts s)) (comments s),
     AwaitWrite (PostRef pid) ws).
Proof. intros Hd. simpl. unfold updateDoc. simpl. by rewrite Hd. Qed.

(** A call resumed on its own until it has finished does what [handleVote]
    does: at most one read, two writes and the return. *)
Lemma runSchedule_alone sess target targetId voteType postId s :
  runSchedule [0; 0; 0; 0] (s, [callVote sess target targetId voteType postId]) =
    ((handleVote sess target targetId voteType postId s).1,
     [Finished (handleVote sess target targetId voteType postId s).2]).
Proof.
  unfold runSchedule, callVote, handleVote. simpl foldl.
  destruct (user sess) as [userId|], (dbReady sess);
    try (by rewrite !resume_0).
  set (ref := voteRef target targetId postId).
  rewrite resume_0.
  destruct (posts s !! targetId) as [data|] eqn:Hdata.
  - rewrite (stepTask_read _ _ _ _ _ data Hdata). simpl fst; simpl snd.
    pose proof (voteWrites_shape data userId voteType) as Hshape.
    destruct (switches data userId voteType).
    + destruct Hshape as (w1 & w2 & ->).
      rewrite resume_0. simpl. unfold updateDoc.
      destruct (getDoc ref s) as [d|]; simpl; [|by rewrite !resume_0].
      rewrite resume_0. simpl. unfold updateDoc.
      rewrite getDoc_setDoc. simpl. by rewrite resume_0.
    + destruct Hshape as (w & ->).
      rewrite resume_0. simpl. unfold updateDoc.
      destruct (getDoc ref s) as [d|]; simpl; by rewrite !resume_0.
  - simpl. rewrite Hdata. by rewrite !resume_0.
Qed.

(** For a user who is not among the upvoters of the snapshot, a like is a
    write of the upvoters with the user appended and of a count one higher,
    followed by the retraction of the user's dislike, if any. *)
Lemma voteWrites_like_first d u :
  u ∉ likersOf d →
  ∃ rest, voteWrites d u "like"
            = SetLikers (likersOf d ++ [u]) (likes d + 1) :: rest ∧
          Forall (λ w, ∃ l n, w = SetDislikers l n) rest.
Proof.
  intros Hl. unfold voteWrites. simpl.
  rewrite (bool_decide_eq_false_2 _ Hl).
  case_bool_decide; eexists; (split; [reflexivity|]); eauto.
Qed.

(** Dislike writes leave the likers and the like count alone. *)
Lemma mergeAll_SetDislikers rest : ∀ d,
  Forall (λ w, ∃ l n, w = SetDislikers l n) rest →
  likers (mergeAll d rest) = likers d ∧
  likes (mergeAll d rest) = likes d.
Proof.
  induction rest as [|w rest IH]; intros d Hall; [done|].
  apply Forall_cons in Hall as [(l & n & ->) Hall].
  specialize (IH (mergeFields (SetDislikers l n) d) Hall).
  simpl in *. by destruct IH as [-> ->].
Qed.

(** A call that holds its snapshot and is resumed until it returns stores
    its writes on top of whatever the post holds by then. *)
Lemma resume_writes_0 pid ws : ∀ s d t1,
  posts s !! pid = Some d →
  length ws ≤ 2 →
  runSchedule [0; 0; 0] (s, [AwaitWrite (PostRef pid) ws; t1]) =
    (mkStore (<[pid := mergeAll d ws]> (posts s)) (comments s),
     [Finished Done; t1]).
Proof.
  intros s d t1 Hd Hlen. unfold runSchedule. simpl foldl.
  destruct ws as [|w1 [|w2 [|w3 ws]]]; simpl in Hlen; try lia.
  - rewrite !resume_0. simpl. destruct s. simpl in *. by rewrite insert_id.
  - rewrite resume_0, (stepTask_write _ _ _ _ d Hd). by rewrite !resume_0.
  - rewrite resume_0, (stepTask_write _ _ _ _ d Hd). simpl fst; simpl snd.
    rewrite resume_0.
    rewrite (stepTask_write _ _ _ _ (mergeFields w1 d))
      by (simpl; apply lookup_insert_eq).
    simpl. rewrite insert_insert_eq. by rewrite resume_0.
Qed.

Lemma resume_writes_1 pid ws : ∀ s d t0,
  posts s !! pid = Some d →
  length ws ≤ 2 →
  runSchedule [1; 1; 1] (s, [t0; AwaitWrite (PostRef pid) ws]) =
    (mkStore (<[pid := mergeAll d ws]> (posts s)) (comments s),
     [t0; Finished Done]).
Proof.
  intros s d t0 Hd Hlen. unfold runSchedule. simpl foldl.
  destruct ws as [|w1 [|w2 [|w3 ws]]]; simpl in Hlen; try lia.
  - rewrite !resume_1. simpl. destruct s. simpl in *. by rewrite insert_id.
  - rewrite resume_1, (stepTask_write _ _ _ _ d Hd). by rewrite !resume_1.
  - rewrite resume_1, (stepTask_write _ _ _ _ d Hd). simpl fst; simpl snd.
    rewrite resume_1.
    rewrite (stepTask_write _ _ _ _ (mergeFields w1 d))
      by (simpl; apply lookup_insert_eq).
    simpl. rewrite insert_insert_eq. by rewrite resume_1.
Qed.

Lemma voteWrites_length data userId voteType :
  length (voteWrites data userId voteType) ≤ 2.
Proof.
  pose proof (voteWrites_shape data userId voteType) as H.
  destruct (switches data userId voteType).
  - destruct H as (w1 & w2 & ->). simpl. lia.
  - destruct H as (w & ->). simpl. lia.
Qed.

Lemma runSchedule_app l1 l2 st :
  runSchedule (l1 ++ l2) st = runSchedule l2 (runSchedule l1 st).
Proof. unfold runSchedule. apply foldl_app. Qed.

(** The item left by a like of a user who was not among the likers, stored
    on top of any document [base]. *)
Lemma mergeAll_like_first base d u :
  u ∉ likersOf d →
  likersOf (mergeAll base (voteWrites d u "like")) = likersOf d ++ [u] ∧
  likes (mergeAll base (voteWrites d u "like")) = (likes d + 1)%Z.
Proof.
  intros Hout.
  destruct (voteWrites_like_first d u Hout) as (rest & -> & Hrest).
  set (w := SetLikers (likersOf d ++ [u]) (likes d + 1)).
  change (mergeAll base (w :: rest)) with (mergeAll (mergeFields w base) rest).
  unfold likersOf at 1.
  by destruct (mergeAll_SetDislikers rest (mergeFields w base) Hrest) as [-> ->].
Qed.

(** C5 (lost update): two users like the same post, which nobody has liked
    yet.  If both calls take their snapshot before either writes, the second
    call's write replaces the first one's and the post ends with a like
    count of 1 and only the second user among its likers; if the second call
    starts after the first has returned, the count is 2. *)
Theorem handleVote_lost_update pid u1 u2 s d :
  posts s !! pid = Some d →
  likes d = 0%Z → likersOf d = [] → u1 ≠ u2 →
  let calls := [callVote (signedIn u1) "post" pid "like" None;
                callVote (signedIn u2) "post" pid "like" None] in
  (∃ s' d',
     runSchedule [0; 1; 0; 0; 0; 1; 1; 1] (s, calls)
       = (s', [Finished Done; Finished Done]) ∧
     posts s' !! pid = Some d' ∧ likes d' = 1%Z ∧ likersOf d' = [u2]) ∧
  (∃ s' d',
     runSchedule [0; 0; 0; 0; 1; 1; 1; 1] (s, calls)
       = (s', [Finished Done; Finished Done]) ∧
     posts s' !! pid = Some d' ∧ likes d' = 2%Z ∧ likersOf d' = [u1; u2]).
Proof.
  intros Hd Hlikes Hnone Hne. cbv zeta.
  change (callVote (signedIn u1) "post" pid "like" None)
    with (AwaitRead (PostRef pid) pid u1 "like").
  change (callVote (signedIn u2) "post" pid "like" None)
    with (AwaitRead (PostRef pid) pid u2 "like").
  assert (Hout : ∀ u, u ∉ likersOf d) by (intros u; rewrite Hnone; set_solver).
  set (d1 := mergeAll d (voteWrites d u1 "like")).
  destruct (mergeAll_like_first d d u1 (Hout u1)) as [Hl1 Hn1].
  fold d1 in Hl1, Hn1. rewrite Hnone in Hl1. rewrite Hlikes in Hn1.
  set (s1 := mkStore (<[pid := d1]> (posts s)) (comments s)).
  assert (Hs1 : posts s1 !! pid = Some d1) by (simpl; apply lookup_insert_eq).
  split.
  - (* both snapshots are taken first *)
    change [0; 1; 0; 0; 0; 1; 1; 1] with ([0; 1] ++ [0; 0; 0] ++ [1; 1; 1]).
    rewrite !runSchedule_app.
    assert (runSchedule [0; 1]
              (s, [AwaitRead (PostRef pid) pid u1 "like";
                   AwaitRead (PostRef pid) pid u2 "like"]) =
            (s, [AwaitWrite (PostRef pid) (voteWrites d u1 "like");
                 AwaitWrite (PostRef pid) (voteWrites d u2 "like")])) as ->.
    { unfold runSchedule. simpl foldl.
      rewrite resume_0, (stepTask_read _ _ _ _ _ d Hd). simpl fst; simpl snd.
      by rewrite resume_1, (stepTask_read _ _ _ _ _ d Hd). }
    rewrite (resume_writes_0 pid _ s d _ Hd (voteWrites_length _ _ _)).
    fold d1. fold s1.
    rewrite (resume_writes_1 pid _ s1 d1 _ Hs1 (voteWrites_length _ _ _)).
    eexists _, _. split; [reflexivity|].
    split; [simpl; apply lookup_insert_eq|].
    destruct (mergeAll_like_first d1 d u2 (Hout u2)) as [-> ->].
    rewrite Hnone, Hlikes. done.
  - (* the second call starts after the first has returned *)
    change [0; 0; 0; 0; 1; 1; 1; 1] with ([0] ++ [0; 0; 0] ++ [1] ++ [1; 1; 1]).
    rewrite !runSchedule_app.
    assert (runSchedule [0]
              (s, [AwaitRead (PostRef pid) pid u1 "like";
                   AwaitRead (PostRef pid) pid u2 "like"]) =
            (s, [AwaitWrite (PostRef pid) (voteWrites d u1 "like");
                 AwaitRead (PostRef pid) pid u2 "like"])) as ->.
    { unfold runSchedule. simpl foldl.
      by rewrite resume_0, (stepTask_read _ _ _ _ _ d Hd). }
    rewrite (resume_writes_0 pid _ s d _ Hd (voteWrites_length _ _ _)).
    fold d1. fold s1.
    assert (runSchedule [1]
              (s1, [Finished Done; AwaitRead (PostRef pid) pid u2 "like"]) =
            (s1, [Finished Done;
                  AwaitWrite (PostRef pid) (voteWrites d1 u2 "like")])) as ->.
    { unfold runSchedule. simpl foldl.
      by rewrite resume_1, (stepTask_read _ _ _ _ _ d1 Hs1). }
    rewrite (resume_writes_1 pid _ s1 d1 _ Hs1 (voteWrites_length _ _ _)).
    assert (Hu2 : u2 ∉ likersOf d1) by (rewrite Hl1; set_solver).
    eexists _, _. split; [reflexivity|].
    split; [simpl; apply lookup_insert_eq|].
    destruct (mergeAll_like_first d1 d1 u2 Hu2) as [-> ->].
    rewrite Hl1, Hn1. done.
Qed.

Lemma handleVote_lost_update_witness :
  ({["p1" := freshPost]} : gmap string DocData) !! "p1" = Some freshPost ∧
  likes freshPost = 0%Z ∧ likersOf freshPost = [] ∧ alice ≠ bob ∧
  ∃ s' d',
    runSchedule [0; 1; 0; 0; 0; 1; 1; 1]
      (mkStore {["p1" := freshPost]} ∅,
       [callVote (signedIn alice) "post" "p1" "like" None;
        callVote (signedIn bob) "post" "p1" "like" None])
      = (s', [Finished Done; Finished Done]) ∧
    posts s' !! "p1" = Some d' ∧ likes d' = 1%Z ∧ likersOf d' = [bob].
Proof.
  assert (H1 : posts (mkStore {["p1" := freshPost]} ∅) !! "p1" = Some freshPost)
    by reflexivity.
  assert (H2 : likes freshPost = 0%Z) by reflexivity.
  assert (H3 : likersOf freshPost = []) by reflexivity.
  assert (H4 : alice ≠ bob) by discriminate.
  split_and!; [exact H1 | exact H2 | exact H3 | exact H4 | ].
  exact (proj1 (handleVote_lost_update "p1" alice bob _ freshPost H1 H2 H3 H4)).
Defined.

(** ** The comment forest *)

Section Forest.
Implicit Types (c r : CommentRecord) (n : CommentNode)
               (records : list CommentRecord).

(** A parent reference written by [handleCommentSubmit] is [null] or the
    id of a comment, and ids are not empty; with the empty string ruled
    out, the truthiness test is a test for [null]. *)
Lemma isTopLevel_null c :
  parentCommentId (docData c) ≠ Some "" →
  isTopLevel c = true ↔ parentCommentId (docData c) = None.
Proof.
  unfold isTopLevel, truthy. intros Hne.
  destruct (parentCommentId (docData c)) as [p|]; [|done].
  destruct (String.eqb_spec p "") as [->|Hp]; simpl; split; congruence.
Qed.

Lemma isTopLevel_false c p :
  parentCommentId (docData c) = Some p → p ≠ "" → isTopLevel c = false.
Proof.
  unfold isTopLevel, truthy. intros -> Hp.
  apply String.eqb_neq in Hp. by rewrite Hp.
Qed.

Lemma filter_agree {A} (P Q : A → Prop) `{∀ x, Decision (P x)}
    `{∀ x, Decision (Q x)} (l : list A) :
  Forall (λ x, P x ↔ Q x) l → filter P l = filter Q l.
Proof.
  induction 1 as [|x l Hx _ IH]; [done|].
  rewrite !filter_cons, IH.
  destruct (decide (P x)), (decide (Q x)); naive_solver.
Qed.

Lemma elem_of_build n records :
  n ∈ build records ↔
  ∃ r, r ∈ records ∧ isTopLevel r = true ∧
       n = mkNode r (filter (repliesTo r) records).
Proof.
  unfold build. rewrite list_elem_of_fmap. split.
  - intros (r & -> & Hr). apply list_elem_of_filter in Hr as [Htop Hr]. eauto.
  - intros (r & Hr & Htop & ->). exists r. split; [done|].
    by apply list_elem_of_filter.
Qed.

(** The roots of the forest are the records that pass the top-level test. *)
Lemma roots_of_build records :
  comment <$> build records = filter (λ c, isTopLevel c = true) records.
Proof.
  unfold build. rewrite <- list_fmap_compose. apply list_fmap_id.
Qed.

(** A reply names its root, which is a top-level record of the input. *)
Lemma reply_of_build n c records :
  n ∈ build records → c ∈ replies n →
  c ∈ records ∧ comment n ∈ records ∧ isTopLevel (comment n) = true ∧
  parentCommentId (docData c) = Some (docId (comment n)).
Proof.
  intros Hn Hc. apply elem_of_build in Hn as (r & Hr & Htop & ->).
  simpl in *. apply list_elem_of_filter in Hc as [Hrep Hc]. done.
Qed.

(** A record with a non-empty parent reference that no top-level record
    answers to is in no part of the forest. *)
Lemma unanswered_absent records c p :
  parentCommentId (docData c) = Some p → p ≠ "" →
  (∀ r, r ∈ records → isTopLevel r = true → docId r ≠ p) →
  (c ∉ comment <$> build records) ∧ ∀ n, n ∈ build records → c ∉ replies n.
Proof.
  intros Hp Hne Hnoroot. split.
  - rewrite roots_of_build, list_elem_of_filter.
    rewrite (isTopLevel_false c p Hp Hne). naive_solver.
  - intros n Hn Hc.
    destruct (reply_of_build n c records Hn Hc) as (_ & Hr & Htop & Hrep).
    apply (Hnoroot _ Hr Htop). congruence.
Qed.
End Forest.

Example build_example :
  build exampleRecords = [mkNode (rec "1" None) [rec "2" (Some "1"); rec "3" (Some "1")]].
Proof. reflexivity. Qed.

(** C2: with parent references that are [null] or a (non-empty) comment id,
    [build] splits the records into roots (no parent) and children (a parent
    is set), makes one node per root, in input order, and gives each root as
    replies exactly the children whose parent reference is the root's id, in
    the order the children have in the input; the empty collection gives the
    empty forest. *)
Theorem build_partitions_and_attaches (records : list CommentRecord) :
  Forall (λ c, parentCommentId (docData c) ≠ Some "") records →
  let roots := filter (λ c, parentCommentId (docData c) = None) records in
  let children := filter (λ c, parentCommentId (docData c) ≠ None) records in
  roots ++ children ≡ₚ records ∧
  build records = (λ r, mkNode r (filter (repliesTo r) children)) <$> roots ∧
  (∀ n, n ∈ build records → replies n `sublist_of` children) ∧
  (records = [] → build records = []).
Proof.
  intros Hwf roots children.
  assert (Hroots : filter (λ c, isTopLevel c = true) records = roots).
  { apply filter_agree. eapply Forall_impl; [exact Hwf|].
    intros c Hc. by apply isTopLevel_null. }
  assert (Hrep : ∀ r, filter (repliesTo r) records = filter (repliesTo r) children).
  { intros r. unfold children. rewrite list_filter_filter.
    apply filter_agree, Forall_forall. intros c _. unfold repliesTo.
    split; [|tauto]. intros H. split; [done|congruence]. }
  assert (Hbuild : build records
            = (λ r, mkNode r (filter (repliesTo r) children)) <$> roots).
  { unfold build. rewrite Hroots. apply list_fmap_ext. intros _ r _.
    by rewrite Hrep. }
  split_and!.
  - apply filter_app_complement.
  - exact Hbuild.
  - intros n. rewrite Hbuild, list_elem_of_fmap. intros (r & -> & _).
    simpl. apply sublist_filter.
  - by intros ->.
Qed.

Lemma build_partitions_and_attaches_witness :
  Forall (λ c, parentCommentId (docData c) ≠ Some "") exampleRecords ∧
  build exampleRecords =
    [mkNode (rec "1" None) [rec "2" (Some "1"); rec "3" (Some "1")]].
Proof.
  assert (Hwf : Forall (λ c, parentCommentId (docData c) ≠ Some "") exampleRecords)
    by (repeat constructor; discriminate).
  split; [exact Hwf|].
  destruct (build_partitions_and_attaches exampleRecords Hwf) as (_ & -> & _).
  reflexivity.
Defined.

(** C6 (orphans are dropped): a record whose parent reference is set and is
    the id of no root is neither a root of the forest nor a reply of any
    root. *)
Theorem build_drops_orphans (records : list CommentRecord) (c : CommentRecord)
    (p : string) :
  parentCommentId (docData c) = Some p → p ≠ "" →
  (∀ r, r ∈ records → isTopLevel r = true → docId r ≠ p) →
  (c ∉ comment <$> build records) ∧ ∀ n, n ∈ build records → c ∉ replies n.
Proof. apply unanswered_absent. Qed.

Lemma build_drops_orphans_witness :
  parentCommentId (docData (rec "4" (Some "99"))) = Some "99" ∧ "99" ≠ "" ∧
  (rec "4" (Some "99") ∉ comment <$> build exampleRecords).
Proof.
  assert (H1 : parentCommentId (docData (rec "4" (Some "99"))) = Some "99")
    by reflexivity.
  assert (H2 : "99" ≠ "") by discriminate.
  assert (H3 : ∀ r, r ∈ exampleRecords → isTopLevel r = true → docId r ≠ "99").
  { intros r Hr Htop. unfold exampleRecords in Hr.
    repeat (apply elem_of_cons in Hr as [->|Hr]); try discriminate.
    by apply elem_of_nil in Hr. }
  split_and!; [exact H1 | exact H2 | ].
  exact (proj1 (build_drops_orphans exampleRecords _ "99" H1 H2 H3)).
Defined.

(** C7 as the spec words it fails: record 4 of the example names a parent,
    99, that no record has as its id, and it is not among the roots. *)
Lemma orphan_promotion_counterexample :
  rec "4" (Some "99") ∈ exampleRecords ∧
  parentCommentId (docData (rec "4" (Some "99"))) = Some "99" ∧
  ("99" ∉ docId <$> exampleRecords) ∧
  comment <$> build exampleRecords = [rec "1" None] ∧
  (rec "4" (Some "99") ∉ comment <$> build exampleRecords).
Proof.
  split_and!.
  - unfold exampleRecords. set_solver.
  - reflexivity.
  - change (docId <$> exampleRecords) with ["1"; "2"; "3"; "4"].
    intros H. repeat (apply elem_of_cons in H as [H|H]; [discriminate|]).
    by apply elem_of_nil in H.
  - reflexivity.
  - change (comment <$> build exampleRecords) with [rec "1" None].
    intros H. apply list_elem_of_singleton in H. discriminate.
Qed.

(** C7, as the code has it: a record whose parent reference is set and is
    the id of no record of the collection is not made a top-level comment;
    it is in no part of the forest. *)
Theorem build_never_promotes_orphans (records : list CommentRecord)
    (c : CommentRecord) (p : string) :
  parentCommentId (docData c) = Some p → p ≠ "" →
  (∀ r, r ∈ records → docId r ≠ p) →
  (c ∉ comment <$> build records) ∧ ∀ n, n ∈ build records → c ∉ replies n.
Proof.
  intros Hp Hne Hnone. apply (unanswered_absent records c p Hp Hne).
  intros r Hr _. by apply Hnone.
Qed.

Lemma build_never_promotes_orphans_witness :
  parentCommentId (docData (rec "4" (Some "99"))) = Some "99" ∧ "99" ≠ "" ∧
  (∀ n, n ∈ build exampleRecords → rec "4" (Some "99") ∉ replies n).
Proof.
  assert (H1 : parentCommentId (docData (rec "4" (Some "99"))) = Some "99")
    by reflexivity.
  assert (H2 : "99" ≠ "") by discriminate.
  assert (H3 : ∀ r, r ∈ exampleRecords → docId r ≠ "99").
  { intros r Hr. unfold exampleRecords in Hr.
    repeat (apply elem_of_cons in Hr as [->|Hr]); try discriminate.
    by apply elem_of_nil in Hr. }
  split_and!; [exact H1 | exact H2 | ].
  exact (proj2 (build_never_promotes_orphans exampleRecords _ "99" H1 H2 H3)).
Defined.

(** ** Blank input *)

Example trim_example : trim "  hello world " = "hello world".
Proof. vm_compute. reflexivity. Qed.

(** An ideographic space (U+3000) in front and a no-break space (U+00A0)
    behind are stripped. *)
Example trim_wide_example :
  trim (String.string_of_list_ascii (utf8 [227; 128; 128; 104; 105; 194; 160]))
  = "hi".
Proof. vm_compute. reflexivity. Qed.

(** An ideographic space (U+3000) between two no-break spaces (U+00A0). *)
Example blank_example :
  blank (String.string_of_list_ascii (utf8 [194; 160; 227; 128; 128; 194; 160])) = true.
Proof. vm_compute. reflexivity. Qed.

Section Strip.
Variable codes : list (list Ascii.ascii).
Implicit Types (l r c : list Ascii.ascii).

Lemma dropPrefix_Some p l r : dropPrefix p l = Some r ↔ l = p ++ r.
Proof.
  revert l. induction p as [|a p IH]; intros l; simpl.
  - split; congruence.
  - destruct l as [|b l]; [split; discriminate|].
    case_decide as Hab.
    + subst b. rewrite IH. split; congruence.
    + split; [discriminate|]. intros [= ? ?]. done.
Qed.

Lemma stripAny_Some l r :
  stripAny codes l = Some r → ∃ c, c ∈ codes ∧ l = c ++ r.
Proof.
  induction codes as [|c cs IH]; simpl; [discriminate|].
  destruct (dropPrefix c l) as [r'|] eqn:Hd.
  - intros [= ->]. apply dropPrefix_Some in Hd. exists c. split; [left|done].
  - intros (c' & Hc' & ->)%IH. exists c'. split; [by right|done].
Qed.

Lemma stripAny_None l c r :
  stripAny codes l = None → c ∈ codes → l ≠ c ++ r.
Proof.
  induction codes as [|c0 cs IH]; simpl; [intros _ Hc; by inv Hc|].
  destruct (dropPrefix c0 l) as [r'|] eqn:Hd; [discriminate|].
  intros Hnone [->|Hc]%elem_of_cons.
  - intros Heq. apply dropPrefix_Some in Heq. congruence.
  - by apply IH.
Qed.

Hypothesis nonempty : Forall (λ c, c ≠ []) codes.
Hypothesis prefix_free :
  Forall (λ c, Forall (λ c', c `prefix_of` c' → c = c') codes) codes.

Lemma codes_nonempty c : c ∈ codes → c ≠ [].
Proof. intros Hc. by apply (proj1 (Forall_forall _ _) nonempty). Qed.

Lemma codes_prefix_free c c' x y :
  c ∈ codes → c' ∈ codes → c ++ x = c' ++ y → c = c' ∧ x = y.
Proof.
  intros Hc Hc' Heq.
  assert (Hpf : ∀ a b, a ∈ codes → b ∈ codes → a `prefix_of` b → a = b).
  { intros a b Ha Hb. rewrite Forall_forall in prefix_free.
    specialize (prefix_free a Ha). rewrite Forall_forall in prefix_free.
    by apply prefix_free. }
  assert (c = c') as ->.
  { destruct (prefix_weak_total c c' (c ++ x)) as [H|H].
    - by exists x.
    - rewrite Heq. by exists y.
    - by apply Hpf.
    - symmetry. by apply Hpf. }
  split; [done|]. by apply app_inv_head in Heq.
Qed.

Lemma stripAny_code c r : c ∈ codes → stripAny codes (c ++ r) = Some r.
Proof.
  intros Hc. destruct (stripAny codes (c ++ r)) as [r'|] eqn:Hs.
  - apply stripAny_Some in Hs as (c' & Hc' & Heq).
    destruct (codes_prefix_free c c' r r' Hc Hc' Heq) as [_ ->]. done.
  - exfalso. by eapply stripAny_None.
Qed.

Lemma stripAny_nil : stripAny codes [] = None.
Proof.
  destruct (stripAny codes []) as [r|] eqn:Hs; [|done].
  apply stripAny_Some in Hs as (c & Hc & Heq).
  symmetry in Heq. apply app_eq_nil in Heq as [-> _].
  by apply codes_nonempty in Hc.
Qed.

Lemma trimStartWith_concat ws : ∀ fuel,
  Forall (λ w, w ∈ codes) ws → length (concat ws) ≤ fuel →
  trimStartWith codes fuel (concat ws) = [].
Proof.
  induction ws as [|w ws IH]; intros fuel Hws Hlen; simpl.
  - destruct fuel; [done|]. simpl. by rewrite stripAny_nil.
  - apply Forall_cons in Hws as [Hw Hws].
    simpl in Hlen. rewrite length_app in Hlen.
    assert (0 < length w).
    { destruct w; [by apply codes_nonempty in Hw|simpl; lia]. }
    destruct fuel as [|fuel]; [lia|]. simpl.
    rewrite stripAny_code by done. apply IH; [done|lia].
Qed.

Lemma trimStartWith_nil fuel : ∀ l,
  trimStartWith codes fuel l = [] → concatOf codes l.
Proof.
  induction fuel as [|fuel IH]; intros l; simpl.
  - intros ->. by exists [].
  - destruct (stripAny codes l) as [r|] eqn:Hs.
    + intros (ws & Hws & ->)%IH.
      apply stripAny_Some in Hs as (c & Hc & ->).
      exists (c :: ws). split; [by constructor|done].
    + intros ->. by exists [].
Qed.

Lemma trimStartWith_stops fuel : ∀ l,
  length l ≤ fuel → stripAny codes (trimStartWith codes fuel l) = None.
Proof.
  induction fuel as [|fuel IH]; intros l Hlen; simpl.
  - destruct l; [apply stripAny_nil|simpl in Hlen; lia].
  - destruct (stripAny codes l) as [r|] eqn:Hs; [|done].
    apply IH. apply stripAny_Some in Hs as (c & Hc & ->).
    rewrite length_app in Hlen.
    assert (0 < length c).
    { destruct c; [by apply codes_nonempty in Hc|simpl; lia]. }
    lia.
Qed.

Lemma concatOf_strips l : concatOf codes l → l ≠ [] → stripAny codes l ≠ None.
Proof.
  intros (ws & Hws & ->) Hne Hnone.
  induction Hws as [|w ws Hw Hws IH]; [done|]. simpl in *.
  by apply (stripAny_None _ w (concat ws) Hnone).
Qed.
End Strip.

Lemma concatOf_reverse codes l :
  concatOf (reverse <$> codes) (reverse l) → concatOf codes l.
Proof.
  intros (ws & Hws & Heq).
  rewrite <- (reverse_involutive l), Heq. clear Heq.
  induction Hws as [|w ws Hw Hws (ws' & Hws' & IH)].
  - by exists [].
  - simpl. rewrite reverse_app, IH.
    apply list_elem_of_fmap in Hw as (c & -> & Hc).
    rewrite reverse_involutive.
    exists (ws' ++ [c]). split.
    + apply Forall_app. split; [done|]. by constructor.
    + rewrite concat_app. simpl. by rewrite app_nil_r.
Qed.

Lemma whiteSpaceCodes_nonempty : Forall (λ c, c ≠ []) whiteSpaceCodes.
Proof. repeat constructor; discriminate. Qed.

Lemma whiteSpaceCodes_prefix_free :
  Forall (λ c, Forall (λ c', c `prefix_of` c' → c = c') whiteSpaceCodes)
         whiteSpaceCodes.
Proof. apply (bool_decide_unpack _). vm_compute. reflexivity. Qed.

Lemma reversed_nonempty : Forall (λ c, c ≠ []) (reverse <$> whiteSpaceCodes).
Proof. repeat constructor; discriminate. Qed.

Lemma trimStart_nil l : trimStart l = [] ↔ concatOf whiteSpaceCodes l.
Proof.
  unfold trimStart. split.
  - apply trimStartWith_nil.
  - intros (ws & Hws & ->).
    apply trimStartWith_concat;
      auto using whiteSpaceCodes_nonempty, whiteSpaceCodes_prefix_free.
Qed.

Lemma trimEnd_nil l : trimEnd l = [] → concatOf whiteSpaceCodes l.
Proof.
  unfold trimEnd. intros H.
  apply concatOf_reverse, (trimStartWith_nil _ (length l)).
  apply (f_equal reverse) in H. by rewrite reverse_involutive in H.
Qed.

Lemma string_of_list_ascii_nil l : String.string_of_list_ascii l = "" ↔ l = [].
Proof. destruct l; simpl; split; (done || discriminate). Qed.

(** What is left after [trim] is empty exactly for blank text. *)
Lemma trim_empty s : trim s = "" ↔ Blank s.
Proof.
  unfold trim, Blank. rewrite string_of_list_ascii_nil.
  set (l := String.list_ascii_of_string s). split.
  - intros H. apply trimStart_nil.
    destruct (decide (trimStart l = [])) as [|Hne]; [done|]. exfalso.
    apply trimEnd_nil in H.
    apply (concatOf_strips _ _ H Hne).
    apply trimStartWith_stops; [apply whiteSpaceCodes_nonempty|done].
  - intros H. apply trimStart_nil in H. rewrite H. reflexivity.
Qed.

Lemma blank_Blank s : blank s = true ↔ Blank s.
Proof. unfold blank. rewrite bool_decide_eq_true. apply trimStart_nil. Qed.

Lemma trim_eqb s : String.eqb (trim s) "" = blank s.
Proof.
  destruct (blank s) eqn:Hb.
  - apply String.eqb_eq, trim_empty, blank_Blank. done.
  - apply String.eqb_neq. rewrite trim_empty, <- blank_Blank. congruence.
Qed.

(** X1: [handlePostSubmit] refuses, with the message box asking to write
    something, no write and the form left as it is, exactly when nobody is
    signed in, the database is missing, or the content is blank: empty or
    made of nothing but the white space and line terminators that [trim]
    strips. *)
Theorem handlePostSubmit_refusal sess postContent newId s :
  handlePostSubmit sess postContent newId s
    = (s, Modal "Please write something to post.", postContent)
  ↔ user sess = None ∨ dbReady sess = false ∨ Blank postContent.
Proof.
  unfold handlePostSubmit. rewrite trim_eqb, <- blank_Blank.
  destruct (user sess) as [u|], (dbReady sess), (blank postContent);
    split; try (intros _; by eauto); try done.
  intros [H|[H|H]]; discriminate.
Qed.

(** X2: [handleCommentSubmit] gives up without a message, leaving the store
    and the text of the input as they are, exactly when nobody is signed in,
    the database is missing, or the text is blank. *)
Theorem handleCommentSubmit_refusal sess postId parent text newId s :
  handleCommentSubmit sess postId parent text newId s = (s, text)
  ↔ user sess = None ∨ dbReady sess = false ∨ Blank text.
Proof.
  unfold handleCommentSubmit. rewrite trim_eqb, <- blank_Blank.
  destruct (user sess) as [u|], (dbReady sess), (blank text) eqn:Hb;
    split; try (intros _; by eauto); try done.
  - intros [= _ <-]. discriminate.
  - intros [H|[H|H]]; discriminate.
Qed.

(** ** Submitting and deleting *)

(** X3: a post submitted under an id no post has and then deleted leaves
    the store exactly as it was, whoever of the signed-in users deletes
    it. *)
Theorem handlePostDelete_after_submit author deleter postContent newId s :
  posts s !! newId = None →
  handlePostDelete (signedIn deleter) newId
    (handlePostSubmit (signedIn author) postContent newId s).1.1 = s.
Proof.
  intros Hnew. unfold handlePostSubmit, handlePostDelete. simpl.
  destruct s as [ps cs]. simpl in *.
  destruct (String.eqb (trim postContent) ""); simpl.
  - by rewrite delete_id.
  - by rewrite delete_insert_id.
Qed.

Lemma handlePostDelete_after_submit_witness :
  posts sampleStore !! "p2" = None ∧
  handlePostDelete (signedIn bob) "p2"
    (handlePostSubmit (signedIn alice) "hi there" "p2" sampleStore).1.1
  = sampleStore.
Proof.
  assert (H : posts sampleStore !! "p2" = None) by reflexivity.
  split; [exact H|].
  exact (handlePostDelete_after_submit alice bob "hi there" "p2" sampleStore H).
Defined.

(** X4: deleting a post removes that post only: its comments and all other
    documents stay in the store, and from then on a vote on the post ends in
    the message box [Error: Document not found.] and writes nothing. *)
Theorem handlePostDelete_keeps_comments deleter postId s :
  let s' := handlePostDelete (signedIn deleter) postId s in
  posts s' !! postId = None ∧
  (∀ q, q ≠ postId → posts s' !! q = posts s !! q) ∧
  comments s' = comments s ∧
  ∀ voter voteType p,
    handleVote (signedIn voter) "post" postId voteType p s'
      = (s', Modal "Error: Document not found.").
Proof.
  unfold handlePostDelete, handleVote. simpl. split_and!.
  - apply lookup_delete_eq.
  - intros q Hq. by apply lookup_delete_ne.
  - done.
  - intros voter voteType p. by rewrite lookup_delete_eq.
Qed.

(** ** What a vote leaves alone *)

Lemma getDoc_setDoc_ne r r' d s : r ≠ r' → getDoc r (setDoc r' d s) = getDoc r s.
Proof.
  intros Hne. destruct r, r'; simpl; try done.
  - apply lookup_insert_ne. congruence.
  - apply lookup_insert_ne. congruence.
Qed.

(** The store a call of [handleVote] leaves: the old one, or the old one
    with the referenced document, which existed, holding the writes
    computed from the post with the target id. *)
Lemma handleVote_store sess target targetId voteType postId s :
  (handleVote sess target targetId voteType postId s).1 = s ∨
  ∃ userId data d,
    user sess = Some userId ∧
    posts s !! targetId = Some data ∧
    getDoc (voteRef target targetId postId) s = Some d ∧
    handleVote sess target targetId voteType postId s =
      (setDoc (voteRef target targetId postId)
              (mergeAll d (voteWrites data userId voteType)) s, Done).
Proof.
  unfold handleVote.
  destruct (user sess) as [userId|], (dbReady sess); try (by left).
  destruct (posts s !! targetId) as [data|] eqn:Hdata; [|by left].
  destruct (getDoc (voteRef target targetId postId) s) as [d|] eqn:Hd.
  - right. exists userId, data, d. split_and!; try done.
    by apply runWrites_present.
  - left. destruct (voteWrites_cons data userId voteType) as (w & ws & ->).
    by rewrite runWrites_absent.
Qed.

Lemma mergeAll_other_fields ws : ∀ d,
  parentCommentId (mergeAll d ws) = parentCommentId d ∧
  content (mergeAll d ws) = content d.
Proof.
  induction ws as [|w ws IH]; intros d; [done|].
  change (mergeAll d (w :: ws)) with (mergeAll (mergeFields w d) ws).
  destruct (IH (mergeFields w d)) as [-> ->]. by destruct w.
Qed.

(** X5: a call of [handleVote] changes no document other than the one its
    reference names, creates none and deletes none, and leaves the parent
    reference and the content of the document it writes as they were. *)
Theorem handleVote_frame sess target targetId voteType postId s r :
  let s' := (handleVote sess target targetId voteType postId s).1 in
  (r ≠ voteRef target targetId postId → getDoc r s' = getDoc r s) ∧
  (is_Some (getDoc r s') ↔ is_Some (getDoc r s)) ∧
  (∀ d d', getDoc r s = Some d → getDoc r s' = Some d' →
     parentCommentId d' = parentCommentId d ∧ content d' = content d).
Proof.
  simpl.
  destruct (handleVote_store sess target targetId voteType postId s)
    as [->|(u & data & d0 & _ & _ & Hd0 & ->)].
  - split_and!; [done | done |]. intros d d' -> [= ->]. done.
  - simpl. set (ref := voteRef target targetId postId) in *.
    destruct (decide (r = ref)) as [->|Hne].
    + rewrite getDoc_setDoc, Hd0. split_and!; [done | |].
      * split; eauto.
      * intros d d' [= <-] [= <-]. apply mergeAll_other_fields.
    + rewrite getDoc_setDoc_ne by done. split_and!; [done | done |].
      intros d d' -> [= ->]. done.
Qed.

(** ** The voter and the others *)

Lemma filter_ne_idemp (l : list string) u :
  filter (λ id, id ≠ u) (filter (λ id, id ≠ u) l) = filter (λ id, id ≠ u) l.
Proof.
  rewrite list_filter_filter. apply filter_agree, Forall_forall.
  intros x _. tauto.
Qed.

Lemma filter_ne_snoc_any (l : list string) u :
  filter (λ id, id ≠ u) (l ++ [u]) = filter (λ id, id ≠ u) l.
Proof.
  rewrite filter_app, filter_cons_False by (intros H; by apply H).
  by rewrite filter_nil, app_nil_r.
Qed.

(** Splits on the vote type, on whether the voter has liked and on whether
    the voter has disliked, and puts [applyVote] in the form of its case. *)
Ltac vote_cases d u vt :=
  let Hvt := fresh "Hvt" in
  let Hul := fresh "Hul" in
  let Hud := fresh "Hud" in
  destruct (decide (vt = "like")) as [->|Hvt];
  destruct (decide (u ∈ likersOf d)) as [Hul|Hul];
  destruct (decide (u ∈ dislikersOf d)) as [Hud|Hud];
  first [ rewrite (applyVote_like_retract d u) by done
        | rewrite (applyVote_like_fresh d u) by done
        | rewrite (applyVote_like_switch d u) by done
        | rewrite (applyVote_dislike_retract d u) by done
        | rewrite (applyVote_dislike_fresh d u) by done
        | rewrite (applyVote_dislike_switch d u) by done ].

(** X6: a vote by [u] changes nobody else's entries: with [u] taken out,
    the likers array and the dislikers array are what they were, entry for
    entry and in the same order. *)
Theorem applyVote_others_untouched d u vt :
  filter (λ id, id ≠ u) (likersOf (applyVote d u vt))
    = filter (λ id, id ≠ u) (likersOf d) ∧
  filter (λ id, id ≠ u) (dislikersOf (applyVote d u vt))
    = filter (λ id, id ≠ u) (dislikersOf d).
Proof.
  vote_cases d u vt; unfold likersOf, dislikersOf; simpl;
    fold (likersOf d) (dislikersOf d);
    by rewrite ?filter_ne_idemp, ?filter_ne_snoc_any.
Qed.

(** X7: after a vote by [u], whatever the item held before, [u] is in at
    most one of the two arrays; [u] is among the likers after a like
    exactly when [u] was not before, and among the dislikers after any
    other vote exactly when [u] was not before. *)
Theorem applyVote_toggles_voter d u vt :
  let d' := applyVote d u vt in
  ¬ (u ∈ likersOf d' ∧ u ∈ dislikersOf d') ∧
  (vt = "like" → (u ∈ likersOf d' ↔ u ∉ likersOf d)) ∧
  (vt ≠ "like" → (u ∈ dislikersOf d' ↔ u ∉ dislikersOf d)).
Proof.
  simpl.
  assert (Hf : ∀ l : list string, u ∉ filter (λ id, id ≠ u) l).
  { intros l. rewrite list_elem_of_filter. naive_solver. }
  vote_cases d u vt; unfold likersOf, dislikersOf; simpl;
    fold (likersOf d) (dislikersOf d);
    (split_and!; [ | intros ? | intros ? ]; try done;
     try (pose proof (Hf (likersOf d)); pose proof (Hf (dislikersOf d));
          set_solver)).
Qed.

(** ** Calls in sequence *)

Lemma newDoc_inv parent text : VoteInv (newDoc parent text).
Proof. split; [reflexivity | reflexivity | vote_sets; set_solver]. Qed.

Lemma voteRef_post targetId postId : voteRef "post" targetId postId = PostRef targetId.
Proof. reflexivity. Qed.

Lemma voteRef_cases target targetId postId :
  (target = "post" ∧ voteRef target targetId postId = PostRef targetId) ∨
  (target ≠ "post" ∧
   voteRef target targetId postId = CommentRef (default "null" postId) targetId).
Proof.
  unfold voteRef. destruct (String.eqb_spec target "post"); eauto.
Qed.

(** One call keeps the invariant on every post. *)
Lemma perform_posts_inv a s :
  (∀ pid d, posts s !! pid = Some d → VoteInv d) →
  ∀ pid d, posts (perform a s) !! pid = Some d → VoteInv d.
Proof.
  intros Hinv pid d. destruct a as [sess c n|sess p|sess p par c n|sess p c|sess t tid vt p];
    simpl.
  - unfold handlePostSubmit.
    destruct (user sess), (dbReady sess), (String.eqb (trim c) ""); simpl;
      try apply Hinv.
    rewrite lookup_insert. case_decide.
    + intros [= <-]. apply newDoc_inv.
    + apply Hinv.
  - unfold handlePostDelete.
    destruct (user sess), (dbReady sess); simpl; try apply Hinv.
    rewrite lookup_delete. case_decide; [done|apply Hinv].
  - unfold handleCommentSubmit.
    destruct (user sess), (dbReady sess), (String.eqb (trim c) ""); simpl;
      apply Hinv.
  - unfold handleCommentDelete.
    destruct (user sess), (dbReady sess); simpl; apply Hinv.
  - destruct (handleVote_store sess t tid vt p s)
      as [->|(u & data & d0 & _ & Hdata & Hd0 & ->)]; [apply Hinv|].
    destruct (voteRef_cases t tid p) as [[-> ->]|[_ ->]]; simpl in *.
    + rewrite lookup_insert. case_decide; [|apply Hinv].
      intros [= <-]. rewrite Hdata in Hd0. injection Hd0 as <-.
      apply VoteInv_applyVote. by eapply Hinv.
    + apply Hinv.
Qed.

(** X8: handler calls that run one after the other, each to its end, keep
    the vote invariant on every post: if every post of the store satisfies
    it before, every post satisfies it after any sequence of post and
    comment submissions, deletions and votes. *)
Theorem performAll_posts_invariant acts s :
  (∀ pid d, posts s !! pid = Some d → VoteInv d) →
  ∀ pid d, posts (performAll acts s) !! pid = Some d → VoteInv d.
Proof.
  revert s. induction acts as [|a acts IH]; intros s Hinv; [exact Hinv|].
  simpl. apply IH. by apply perform_posts_inv.
Qed.

Lemma performAll_posts_invariant_witness :
  (∀ pid d, posts emptyStore !! pid = Some d → VoteInv d) ∧
  ∀ pid d,
    posts (performAll [SubmitPost (signedIn alice) "hello" "p1";
                       Vote (signedIn bob) "post" "p1" "dislike" None;
                       Vote (signedIn bob) "post" "p1" "like" None]
                      emptyStore) !! pid = Some d → VoteInv d.
Proof.
  assert (H : ∀ pid d, posts emptyStore !! pid = Some d → VoteInv d).
  { intros pid d Hd. simpl in Hd. rewrite lookup_empty in Hd. discriminate. }
  split; [exact H|].
  exact (performAll_posts_invariant _ emptyStore H).
Defined.

(** While no post has the id of a comment, a call whose target is not a
    post ends without a write. *)
Lemma handleVote_comment_no_effect_aux sess target targetId voteType postId s :
  idsApart s → target ≠ "post" →
  ∃ o, handleVote sess target targetId voteType postId s = (s, o).
Proof.
  intros Hapart Ht. unfold handleVote.
  destruct (user sess) as [u|], (dbReady sess); try (by eexists).
  destruct (posts s !! targetId) as [data|] eqn:Hdata; [|by eexists].
  destruct (voteRef_cases target targetId postId) as [[? _]|[_ ->]]; [done|].
  destruct (getDoc (CommentRef (default "null" postId) targetId) s)
    as [d0|] eqn:Hd0.
  - simpl in Hd0.
    rewrite (Hapart (default "null" postId) targetId) in Hdata by eauto.
    discriminate.
  - destruct (voteWrites_cons data u voteType) as (w & ws & ->).
    rewrite runWrites_absent by done. by eexists.
Qed.



Lemma newDoc_unvoted parent text : unvoted (newDoc parent text).
Proof. by repeat split. Qed.

(** One call, drawing an unused id if it draws one, keeps post ids and
    comment ids apart and every comment unvoted. *)
Lemma perform_comments_unvoted a s :
  drawsUnusedIds [a] s → idsApart s →
  (∀ k d, comments s !! k = Some d → unvoted d) →
  idsApart (perform a s) ∧
  ∀ k d, comments (perform a s) !! k = Some d → unvoted d.
Proof.
  intros [Hfresh _] Hapart Hun.
  destruct a as [sess c n|sess p|sess p par c n|sess p c|sess t tid vt p];
    simpl in *.
  - unfold handlePostSubmit.
    destruct (user sess), (dbReady sess), (String.eqb (trim c) ""); simpl;
      try done.
    split; [|done]. intros p' c' Hc. simpl in *.
    destruct Hfresh as [_ Hfresh].
    rewrite lookup_insert_ne; [by eapply Hapart|].
    intros ->. rewrite Hfresh in Hc. by destruct Hc.
  - unfold handlePostDelete.
    destruct (user sess), (dbReady sess); simpl; try done.
    split; [|done]. intros p' c' Hc. simpl in *.
    rewrite lookup_delete. case_decide; [done|by eapply Hapart].
  - unfold handleCommentSubmit.
    destruct (user sess), (dbReady sess), (String.eqb (trim c) ""); simpl;
      try done.
    destruct Hfresh as [Hfresh _]. split.
    + intros p' c'. simpl. rewrite lookup_insert. case_decide as Hk.
      * injection Hk as <- <-. done.
      * apply Hapart.
    + intros k d. simpl. rewrite lookup_insert. case_decide.
      * intros [= <-]. apply newDoc_unvoted.
      * apply Hun.
  - unfold handleCommentDelete.
    destruct (user sess), (dbReady sess); simpl; try done. split.
    + intros p' c'. simpl. rewrite lookup_delete. case_decide.
      * intros [? ?]. discriminate.
      * apply Hapart.
    + intros k d. simpl. rewrite lookup_delete. case_decide; [done|apply Hun].
  - destruct (voteRef_cases t tid p) as [[-> Hr]|[Ht _]].
    + destruct (handleVote_store sess "post" tid vt p s)
        as [->|(u & data & d0 & _ & Hdata & _ & ->)]; [done|].
      rewrite Hr. simpl. split; [|done].
      intros p' c' Hc. simpl in *.
      rewrite lookup_insert_ne; [by eapply Hapart|].
      intros ->. rewrite (Hapart p' c' Hc) in Hdata. discriminate.
    + destruct (handleVote_comment_no_effect_aux sess t tid vt p s Hapart Ht)
        as [o ->]. done.
Qed.

(** X10: in a run of handler calls, one after the other, in which every id
    drawn for a new post or comment is unused at that moment, no comment
    ever gets a vote: if post ids and comment ids are apart and every
    comment is unvoted before, every comment is unvoted after, with empty
    voter arrays and counts of 0. *)
Theorem performAll_comments_unvoted acts : ∀ s,
  drawsUnusedIds acts s → idsApart s →
  (∀ k d, comments s !! k = Some d → unvoted d) →
  ∀ k d, comments (performAll acts s) !! k = Some d → unvoted d.
Proof.
  induction acts as [|a acts IH]; intros s Hids Hapart Hun; [exact Hun|].
  destruct Hids as [Hfresh Hrest]. simpl.
  destruct (perform_comments_unvoted a s) as [Hapart' Hun']; try done.
  by apply IH.
Qed.

Lemma performAll_comments_unvoted_witness :
  idsApart emptyStore ∧
  ∀ k d,
    comments (performAll [SubmitPost (signedIn alice) "hello" "p1";
                          SubmitComment (signedIn bob) "p1" None "first" "c1";
                          Vote (signedIn carol) "comment" "c1" "like" (Some "p1")]
                         emptyStore) !! k = Some d → unvoted d.
Proof.
  assert (H1 : idsApart emptyStore).
  { intros p c [d Hd]. simpl in Hd. rewrite lookup_empty in Hd. discriminate. }
  assert (H2 : ∀ k d, comments emptyStore !! k = Some d → unvoted d).
  { intros k d Hd. simpl in Hd. rewrite lookup_empty in Hd. discriminate. }
  split; [exact H1|].
  refine (performAll_comments_unvoted _ emptyStore _ H1 H2).
  simpl. unfold unusedId. simpl. split_and!; done.
Defined.

(** ** Interleaving and mutual exclusion *)

(** X11: two calls in flight can leave a user in both arrays.  User [u1],
    who had disliked the post, likes it while [u2], who had not voted,
    dislikes it; both calls take their snapshot before either writes, the
    first call then does its two writes and the second its one.  The
    second call's dislikers array, built from the stale snapshot, brings
    [u1] back, so the post ends with [u1] among the likers and among the
    dislikers, whatever it held before. *)
Theorem handleVote_interleaved_breaks_exclusion pid u1 u2 s d :
  posts s !! pid = Some d →
  u1 ∉ likersOf d → u1 ∈ dislikersOf d →
  u2 ∉ likersOf d → u2 ∉ dislikersOf d →
  ∃ s' d',
    runSchedule [0; 1; 0; 0; 0; 1; 1; 1]
      (s, [callVote (signedIn u1) "post" pid "like" None;
           callVote (signedIn u2) "post" pid "dislike" None])
      = (s', [Finished Done; Finished Done]) ∧
    posts s' !! pid = Some d' ∧
    u1 ∈ likersOf d' ∧ u1 ∈ dislikersOf d' ∧ ¬ VoteInv d'.
Proof.
  intros Hd Hl1 Hd1 Hl2 Hd2.
  change (callVote (signedIn u1) "post" pid "like" None)
    with (AwaitRead (PostRef pid) pid u1 "like").
  change (callVote (signedIn u2) "post" pid "dislike" None)
    with (AwaitRead (PostRef pid) pid u2 "dislike").
  assert (Hws1 : voteWrites d u1 "like" =
    [SetLikers (likersOf d ++ [u1]) (likes d + 1);
     SetDislikers (filter (λ id, id ≠ u1) (dislikersOf d)) (dislikes d - 1)]).
  { unfold voteWrites. simpl.
    by rewrite (bool_decide_eq_false_2 _ Hl1), (bool_decide_eq_true_2 _ Hd1). }
  assert (Hws2 : voteWrites d u2 "dislike" =
    [SetDislikers (dislikersOf d ++ [u2]) (dislikes d + 1)]).
  { unfold voteWrites. simpl.
    by rewrite (bool_decide_eq_false_2 _ Hl2), (bool_decide_eq_false_2 _ Hd2). }
  change [0; 1; 0; 0; 0; 1; 1; 1] with ([0; 1] ++ [0; 0; 0] ++ [1; 1; 1]).
  rewrite !runSchedule_app.
  assert (runSchedule [0; 1]
            (s, [AwaitRead (PostRef pid) pid u1 "like";
                 AwaitRead (PostRef pid) pid u2 "dislike"]) =
          (s, [AwaitWrite (PostRef pid) (voteWrites d u1 "like");
               AwaitWrite (PostRef pid) (voteWrites d u2 "dislike")])) as ->.
  { unfold runSchedule. simpl foldl.
    rewrite resume_0, (stepTask_read _ _ _ _ _ d Hd). simpl fst; simpl snd.
    by rewrite resume_1, (stepTask_read _ _ _ _ _ d Hd). }
  rewrite (resume_writes_0 pid _ s d _ Hd (voteWrites_length _ _ _)).
  set (d1 := mergeAll d (voteWrites d u1 "like")).
  set (s1 := mkStore (<[pid := d1]> (posts s)) (comments s)).
  assert (Hs1 : posts s1 !! pid = Some d1) by (simpl; apply lookup_insert_eq).
  rewrite (resume_writes_1 pid _ s1 d1 _ Hs1 (voteWrites_length _ _ _)).
  eexists _, _. split; [reflexivity|].
  split; [simpl; apply lookup_insert_eq|].
  unfold d1. rewrite Hws1, Hws2. unfold likersOf at 1, dislikersOf at 1. simpl.
  assert (Hin1 : u1 ∈ likersOf d ++ [u1]) by set_solver.
  assert (Hin2 : u1 ∈ dislikersOf d ++ [u2]) by set_solver.
  split_and!; [done | done |].
  intros [_ _ Hx]. apply (Hx u1); vote_sets; set_solver.
Qed.

Lemma handleVote_interleaved_breaks_exclusion_witness :
  VoteInv samplePost ∧
  ∃ s' d',
    runSchedule [0; 1; 0; 0; 0; 1; 1; 1]
      (sampleStore, [callVote (signedIn bob) "post" "p1" "like" None;
                     callVote (signedIn carol) "post" "p1" "dislike" None])
      = (s', [Finished Done; Finished Done]) ∧
    posts s' !! "p1" = Some d' ∧
    bob ∈ likersOf d' ∧ bob ∈ dislikersOf d' ∧ ¬ VoteInv d'.
Proof.
  split; [exact samplePost_inv|].
  assert (H0 : posts sampleStore !! "p1" = Some samplePost) by reflexivity.
  assert (H1 : bob ∉ likersOf samplePost) by compute_done.
  assert (H2 : bob ∈ dislikersOf samplePost) by compute_done.
  assert (H3 : carol ∉ likersOf samplePost) by compute_done.
  assert (H4 : carol ∉ dislikersOf samplePost) by compute_done.
  exact (handleVote_interleaved_breaks_exclusion "p1" bob carol sampleStore
           samplePost H0 H1 H2 H3 H4).
Defined.

(** ** One level of replies *)

Lemma same_id_same_record (records : list CommentRecord) r r' :
  NoDup (docId <$> records) → r ∈ records → r' ∈ records →
  docId r = docId r' → r = r'.
Proof.
  induction records as [|x l IH]; intros Hnd Hr Hr' Hid; [by inv Hr|].
  rewrite fmap_cons in Hnd. apply NoDup_cons in Hnd as [Hx Hnd].
  apply elem_of_cons in Hr as [->|Hr]; apply elem_of_cons in Hr' as [->|Hr'];
    try done.
  - exfalso. apply Hx. rewrite Hid. by apply list_elem_of_fmap_2.
  - exfalso. apply Hx. rewrite <- Hid. by apply list_elem_of_fmap_2.
  - by apply IH.
Qed.

(** X12: the forest is one level deep.  With non-empty document ids no
    reply of the forest is a top-level comment, so no reply carries
    replies of its own; and with ids that are unique as well, a record that
    answers a reply (a record which names a parent itself) is in no part of
    the forest. *)
Theorem build_one_level (records : list CommentRecord) :
  Forall (λ c, docId c ≠ "") records →
  (∀ n c, n ∈ build records → c ∈ replies n → isTopLevel c = false) ∧
  (NoDup (docId <$> records) →
   ∀ c mid q, mid ∈ records →
     parentCommentId (docData mid) = Some q → q ≠ "" →
     parentCommentId (docData c) = Some (docId mid) →
     (c ∉ comment <$> build records) ∧ ∀ n, n ∈ build records → c ∉ replies n).
Proof.
  intros Hids. rewrite Forall_forall in Hids. split.
  - intros n c Hn Hc.
    destruct (reply_of_build n c records Hn Hc) as (_ & Hr & _ & Hrep).
    apply (isTopLevel_false c _ Hrep). by apply Hids.
  - intros Hnd c mid q Hmid Hq Hne Hc.
    apply (unanswered_absent records c (docId mid) Hc); [by apply Hids|].
    intros r Hr Htop Hid.
    rewrite (same_id_same_record records r mid Hnd Hr Hmid Hid) in Htop.
    rewrite (isTopLevel_false mid q Hq Hne) in Htop. discriminate.
Qed.

Lemma build_one_level_witness :
  Forall (λ c, docId c ≠ "") threadRecords ∧
  NoDup (docId <$> threadRecords) ∧
  (rec "3" (Some "2") ∉ comment <$> build threadRecords) ∧
  ∀ n, n ∈ build threadRecords → rec "3" (Some "2") ∉ replies n.
Proof.
  assert (H1 : Forall (λ c, docId c ≠ "") threadRecords)
    by (repeat constructor; discriminate).
  assert (H2 : NoDup (docId <$> threadRecords)).
  { change (docId <$> threadRecords) with ["1"; "2"; "3"].
    repeat (apply NoDup_cons_2; [set_solver|]). apply NoDup_nil_2. }
  assert (H3 : rec "2" (Some "1") ∈ threadRecords)
    by (unfold threadRecords; set_solver).
  assert (H4 : "1" ≠ "") by discriminate.
  split_and!; [exact H1 | exact H2 | | ];
    apply (proj2 (build_one_level threadRecords H1) H2
             (rec "3" (Some "2")) (rec "2" (Some "1")) "1" H3 eq_refl H4 eq_refl).
Defined.

(** ** What is rendered *)

Lemma elem_of_shown_build c (records : list CommentRecord) :
  c ∈ shown (build records) ↔
  c ∈ records ∧
  (isTopLevel c = true ∨ ∃ r, r ∈ records ∧ isTopLevel r = true ∧ repliesTo r c).
Proof.
  unfold shown. rewrite list_elem_of_bind. split.
  - intros (n & Hc & Hn).
    pose proof Hn as (r & Hr & Htop & ->)%elem_of_build. simpl in Hc.
    apply elem_of_cons in Hc as [->|Hc]; [by eauto|].
    apply list_elem_of_filter in Hc as [Hrep Hc]. eauto 6.
  - intros [Hc [Htop|(r & Hr & Htop & Hrep)]].
    + exists (mkNode c (filter (repliesTo c) records)). split; [by left|].
      apply elem_of_build. eauto.
    + exists (mkNode r (filter (repliesTo r) records)). split.
      * right. by apply list_elem_of_filter.
      * apply elem_of_build. eauto.
Qed.

(** X13: with document ids that are non-empty and unique, no comment is
    rendered twice, the rendered comments are exactly the top-level records
    and the records that answer a top-level record, and there are at most
    as many of them as records. *)
Theorem shown_build_once (records : list CommentRecord) :
  Forall (λ c, docId c ≠ "") records →
  NoDup (docId <$> records) →
  NoDup (shown (build records)) ∧
  (∀ c, c ∈ shown (build records) ↔
        c ∈ records ∧
        (isTopLevel c = true ∨
         ∃ r, r ∈ records ∧ isTopLevel r = true ∧ repliesTo r c)) ∧
  length (shown (build records)) ≤ length records.
Proof.
  intros Hids Hnd. rewrite Forall_forall in Hids.
  assert (Hrec : NoDup records) by (by eapply NoDup_fmap_1).
  assert (Hlow : ∀ n c, n ∈ build records → c ∈ replies n → isTopLevel c = false).
  { intros n c Hn Hc.
    destruct (reply_of_build n c records Hn Hc) as (_ & Hr & _ & Hrep).
    apply (isTopLevel_false c _ Hrep). by apply Hids. }
  assert (Hroot : ∀ n, n ∈ build records →
            comment n ∈ records ∧ isTopLevel (comment n) = true ∧
            n = mkNode (comment n) (filter (repliesTo (comment n)) records)).
  { intros n (r & Hr & Htop & ->)%elem_of_build. done. }
  assert (Hshown : NoDup (shown (build records))).
  { unfold shown. apply NoDup_bind.
    - intros n1 n2 y Hn1 Hn2 Hy1 Hy2.
      destruct (Hroot n1 Hn1) as (Hr1 & Htop1 & Heq1).
      destruct (Hroot n2 Hn2) as (Hr2 & Htop2 & Heq2).
      assert (comment n1 = comment n2) as Hsame; [|rewrite Heq1, Heq2, Hsame; done].
      apply elem_of_cons in Hy1 as [->|Hy1]; apply elem_of_cons in Hy2 as [Hy2|Hy2].
      + done.
      + rewrite (Hlow n2 _ Hn2 Hy2) in Htop1. discriminate.
      + subst y. rewrite (Hlow n1 _ Hn1 Hy1) in Htop2. discriminate.
      + destruct (reply_of_build n1 y records Hn1 Hy1) as (_ & _ & _ & Hp1).
        destruct (reply_of_build n2 y records Hn2 Hy2) as (_ & _ & _ & Hp2).
        apply (same_id_same_record records); try done. congruence.
    - intros n Hn. destruct (Hroot n Hn) as (Hr & Htop & Heq).
      apply NoDup_cons. split.
      + intros Hin. rewrite (Hlow n _ Hn Hin) in Htop. discriminate.
      + rewrite Heq. simpl. by apply NoDup_filter.
    - unfold build. apply NoDup_fmap_2_strong; [|by apply NoDup_filter].
      intros x y _ _ Hxy. by injection Hxy. }
  split_and!; [done | intros c; apply elem_of_shown_build |].
  apply submseteq_length, NoDup_submseteq; [done|].
  intros c Hc. by apply elem_of_shown_build in Hc as [Hc _].
Qed.

Lemma shown_build_once_witness :
  Forall (λ c, docId c ≠ "") threadRecords ∧
  NoDup (docId <$> threadRecords) ∧
  NoDup (shown (build threadRecords)) ∧
  length (shown (build threadRecords)) ≤ length threadRecords.
Proof.
  assert (H1 : Forall (λ c, docId c ≠ "") threadRecords)
    by (repeat constructor; discriminate).
  assert (H2 : NoDup (docId <$> threadRecords)).
  { change (docId <$> threadRecords) with ["1"; "2"; "3"].
    repeat (apply NoDup_cons_2; [set_solver|]). apply NoDup_nil_2. }
  destruct (shown_build_once threadRecords H1 H2) as (H3 & _ & H4).
  split_and!; [exact H1 | exact H2 | exact H3 | exact H4].
Defined.

(** ** From the store to the screen *)

Example commentsSnapshot_example :
  commentsSnapshot "p1" storeWithReply
  = [mkComment "c1" sampleComment; mkComment "c2" (newDoc (Some "c1") "second")].
Proof. vm_compute. reflexivity. Qed.

Example shown_example :
  shown (build exampleRecords)
  = [rec "1" None; rec "2" (Some "1"); rec "3" (Some "1")].
Proof. reflexivity. Qed.

Lemma elem_of_commentsSnapshot c postId s :
  c ∈ commentsSnapshot postId s ↔
  comments s !! (postId, docId c) = Some (docData c).
Proof.
  unfold commentsSnapshot. rewrite list_elem_of_fmap. split.
  - intros ([[p k] d] & -> & Hin). simpl.
    rewrite merge_sort_Permutation in Hin.
    apply list_elem_of_filter in Hin as [Hp Hin]. simpl in Hp. subst p.
    by apply elem_of_map_to_list in Hin.
  - intros Hc. exists (postId, docId c, docData c). split; [by destruct c|].
    rewrite merge_sort_Permutation. apply list_elem_of_filter. split; [done|].
    by apply elem_of_map_to_list.
Qed.

(** A record of the new comment, and its place in the snapshot. *)
Lemma handleCommentSubmit_stored u postId parent text newId s :
  blank text = false →
  (handleCommentSubmit (signedIn u) postId parent text newId s).1 =
    mkStore (posts s) (<[(postId, newId) := newDoc parent text]> (comments s)).
Proof.
  intros Hb. unfold handleCommentSubmit. simpl. by rewrite trim_eqb, Hb.
Qed.

(** X14: a reply to a reply is stored and never rendered.  When a signed-in
    user answers, under an unused id, a comment that itself names a parent,
    the new comment is in the snapshot of the post's comments but not among
    the comments rendered for it. *)
Theorem reply_to_reply_not_shown u postId mid dmid q text newId s :
  comments s !! (postId, mid) = Some dmid →
  parentCommentId dmid = Some q → q ≠ "" → mid ≠ "" →
  comments s !! (postId, newId) = None →
  blank text = false →
  let s' := (handleCommentSubmit (signedIn u) postId (Some mid) text newId s).1 in
  let new := mkComment newId (newDoc (Some mid) text) in
  new ∈ commentsSnapshot postId s' ∧
  new ∉ shown (build (commentsSnapshot postId s')).
Proof.
  intros Hmid Hq Hqne Hmne Hnew Hb. simpl.
  rewrite (handleCommentSubmit_stored u postId _ text newId s Hb).
  split.
  - apply elem_of_commentsSnapshot. simpl. apply lookup_insert_eq.
  - rewrite elem_of_shown_build. intros [_ [Htop|(r & Hr & Htop & Hrep)]].
    + rewrite (isTopLevel_false (mkComment newId (newDoc (Some mid) text)) mid
                 eq_refl Hmne) in Htop. discriminate.
    + unfold repliesTo in Hrep. simpl in Hrep. injection Hrep as Hid.
      apply elem_of_commentsSnapshot in Hr. simpl in Hr.
      rewrite <- Hid, lookup_insert_ne in Hr by congruence.
      rewrite Hmid in Hr. injection Hr as Hr.
      destruct r as [rid rdata]. simpl in *. subst rdata.
      unfold isTopLevel in Htop. simpl in Htop. rewrite Hq in Htop. simpl in Htop.
      apply String.eqb_neq in Hqne. by rewrite Hqne in Htop.
Qed.

Lemma reply_to_reply_not_shown_witness :
  mkComment "c3" (newDoc (Some "c2") "third")
    ∈ commentsSnapshot "p1"
        (handleCommentSubmit (signedIn carol) "p1" (Some "c2") "third" "c3"
           storeWithReply).1 ∧
  mkComment "c3" (newDoc (Some "c2") "third")
    ∉ shown (build (commentsSnapshot "p1"
        (handleCommentSubmit (signedIn carol) "p1" (Some "c2") "third" "c3"
           storeWithReply).1)).
Proof.
  assert (H1 : comments storeWithReply !! ("p1", "c2")
               = Some (newDoc (Some "c1") "second")) by reflexivity.
  assert (H2 : "c1" ≠ "") by discriminate.
  assert (H3 : "c2" ≠ "") by discriminate.
  assert (H4 : comments storeWithReply !! ("p1", "c3") = None) by reflexivity.
  exact (reply_to_reply_not_shown carol "p1" "c2" _ "c1" "third" "c3"
           storeWithReply H1 eq_refl H2 H3 H4 eq_refl).
Defined.

(** X15: a reply to a top-level comment is rendered under it.  When a
    signed-in user answers, under an unused id, a comment that names no
    parent, the forest has a node for that comment and the new comment is
    among its replies. *)
Theorem reply_to_root_shown u postId rid droot text newId s :
  comments s !! (postId, rid) = Some droot →
  truthy (parentCommentId droot) = false →
  comments s !! (postId, newId) = None →
  blank text = false →
  let s' := (handleCommentSubmit (signedIn u) postId (Some rid) text newId s).1 in
  let new := mkComment newId (newDoc (Some rid) text) in
  ∃ n, n ∈ build (commentsSnapshot postId s') ∧
       comment n = mkComment rid droot ∧ new ∈ replies n.
Proof.
  intros Hroot Htop Hnew Hb. simpl.
  rewrite (handleCommentSubmit_stored u postId _ text newId s Hb).
  set (s' := mkStore _ _).
  exists (mkNode (mkComment rid droot)
            (filter (repliesTo (mkComment rid droot)) (commentsSnapshot postId s'))).
  split_and!; [|done|].
  - apply elem_of_build. exists (mkComment rid droot). split_and!; [| |done].
    + apply elem_of_commentsSnapshot. simpl.
      rewrite lookup_insert_ne by congruence. done.
    + unfold isTopLevel. simpl. by rewrite Htop.
  - simpl. apply list_elem_of_filter. split; [done|].
    apply elem_of_commentsSnapshot. simpl. apply lookup_insert_eq.
Qed.

Lemma reply_to_root_shown_witness :
  ∃ n, n ∈ build (commentsSnapshot "p1"
                    (handleCommentSubmit (signedIn carol) "p1" (Some "c1")
                       "me too" "c3" storeWithReply).1) ∧
       comment n = mkComment "c1" sampleComment ∧
       mkComment "c3" (newDoc (Some "c1") "me too") ∈ replies n.
Proof.
  assert (H1 : comments storeWithReply !! ("p1", "c1") = Some sampleComment)
    by reflexivity.
  assert (H4 : comments storeWithReply !! ("p1", "c3") = None) by reflexivity.
  exact (reply_to_root_shown carol "p1" "c1" _ "me too" "c3"
           storeWithReply H1 eq_refl H4 eq_refl).
Defined.

(** X16: deleting a top-level comment hides its replies and keeps them in
    the store: after the deletion a comment that answers the deleted one is
    still in the snapshot of the post's comments and is not rendered. *)
Theorem handleCommentDelete_hides_replies u postId rid cid dc s :
  comments s !! (postId, cid) = Some dc →
  parentCommentId dc = Some rid → rid ≠ "" → cid ≠ rid →
  let s' := handleCommentDelete (signedIn u) postId rid s in
  mkComment cid dc ∈ commentsSnapshot postId s' ∧
  mkComment cid dc ∉ shown (build (commentsSnapshot postId s')).
Proof.
  intros Hc Hp Hrid Hne. unfold handleCommentDelete. simpl. split.
  - apply elem_of_commentsSnapshot. simpl.
    rewrite lookup_delete_ne by congruence. done.
  - rewrite elem_of_shown_build. intros [_ [Htop|(r & Hr & _ & Hrep)]].
    + rewrite (isTopLevel_false (mkComment cid dc) rid Hp Hrid) in Htop.
      discriminate.
    + unfold repliesTo in Hrep. simpl in Hrep. rewrite Hp in Hrep.
      injection Hrep as Hid.
      apply elem_of_commentsSnapshot in Hr. simpl in Hr.
      rewrite <- Hid, lookup_delete_eq in Hr. discriminate.
Qed.

Lemma handleCommentDelete_hides_replies_witness :
  mkComment "c2" (newDoc (Some "c1") "second")
    ∈ commentsSnapshot "p1" (handleCommentDelete (signedIn alice) "p1" "c1" storeWithReply) ∧
  mkComment "c2" (newDoc (Some "c1") "second")
    ∉ shown (build (commentsSnapshot "p1"
               (handleCommentDelete (signedIn alice) "p1" "c1" storeWithReply))).
Proof.
  assert (H1 : comments storeWithReply !! ("p1", "c2")
               = Some (newDoc (Some "c1") "second")) by reflexivity.
  assert (H2 : "c1" ≠ "") by discriminate.
  assert (H3 : "c2" ≠ "c1") by discriminate.
  exact (handleCommentDelete_hides_replies alice "p1" "c1" "c2" _
           storeWithReply H1 eq_refl H2 H3).
Defined.

(** ** Signing in *)

Example usersWhereUid_example :
  usersWhereUid "u1" (users bannedBackend) = [mkUserDoc "u1" (Some "Mallory") true].
Proof. vm_compute. reflexivity. Qed.

Lemma NoDup_all_equal {A} (l : list A) a :
  NoDup l → (∀ x, x ∈ l → x = a) → a ∈ l → l = [a].
Proof.
  intros Hnd Hall Hin. destruct l as [|x l]; [by inv Hin|].
  rewrite (Hall x) by left. f_equal.
  destruct l as [|y l]; [done|]. exfalso.
  apply NoDup_cons in Hnd as [Hx _]. apply Hx.
  rewrite (Hall x), <- (Hall y); [left | right; left | left].
Qed.

(** With every document under its own [uid], the query by [uid] is a
    lookup. *)
Lemma usersWhereUid_keyed u coll :
  keyedByUid coll →
  usersWhereUid u coll = match coll !! u with Some d => [d] | None => [] end.
Proof.
  intros Hkey. unfold usersWhereUid.
  set (L := filter _ _).
  assert (HL : ∀ kd, kd ∈ L ↔ coll !! kd.1 = Some kd.2 ∧ kd.1 = u).
  { intros [k d]. unfold L. rewrite list_elem_of_filter, merge_sort_Permutation.
    rewrite elem_of_map_to_list. simpl. split.
    - intros [Hu Hd]. split; [done|]. by rewrite <- (Hkey k d Hd).
    - intros [Hd <-]. split; [|done]. by apply Hkey. }
  assert (Hnd : NoDup L).
  { unfold L. apply NoDup_filter. rewrite merge_sort_Permutation.
    apply NoDup_map_to_list. }
  destruct (coll !! u) as [d|] eqn:Hd.
  - rewrite (NoDup_all_equal L (u, d) Hnd); [done| |].
    + intros [k d'] [Hk Hu]%HL. simpl in *. subst k. congruence.
    + apply HL. done.
  - destruct L as [|[k d'] L'] eqn:HeqL; [done|]. exfalso.
    assert ((k, d') ∈ (k, d') :: L') as [Hk Hu]%HL by left.
    simpl in *. subst k. congruence.
Qed.

(** X17: a banned user is never made the user of the app.  When the users
    collection, keyed by [uid], holds a banned document for the reported
    user, the listener leaves the app without a user and the collection as
    it was, whatever SDK call fails; and unless a call fails it signs the
    user out and shows the ban message. *)
Theorem onAuthStateChanged_banned fault cu d b app :
  keyedByUid (users b) →
  users b !! uid cu = Some d → isBanned d = true →
  let r := onAuthStateChanged fault (Some cu) b app in
  appUser r.2 = None ∧ users r.1 = users b ∧
  (fault = NoFault →
     currentUser r.1 = None ∧ isModalOpen r.2 = true ∧
     modalMessage r.2 = "Your account has been banned. You have been signed out.").
Proof.
  intros Hkey Hd Hban. unfold onAuthStateChanged, authListenerBody.
  rewrite (usersWhereUid_keyed _ _ Hkey), Hd, Hban.
  destruct fault; simpl; split_and!; try done; discriminate.
Qed.

Lemma keyedByUid_singleton k d : userUid d = k → keyedByUid {[k := d]}.
Proof. intros Hd k' d' [<- <-]%lookup_singleton_Some. done. Qed.

Lemma onAuthStateChanged_banned_witness :
  keyedByUid (users bannedBackend) ∧
  appUser (onAuthStateChanged NoFault (Some (mkAuthUser "u1" (Some "Mallory")))
             bannedBackend startApp).2 = None.
Proof.
  assert (H1 : keyedByUid (users bannedBackend))
    by (apply keyedByUid_singleton; reflexivity).
  split; [exact H1|].
  exact (proj1 (onAuthStateChanged_banned NoFault (mkAuthUser "u1" (Some "Mallory"))
                  _ bannedBackend startApp H1 eq_refl eq_refl)).
Defined.

(** X18: signing in never overwrites or removes a user document.  With the
    users collection keyed by [uid], every document it holds is still there
    unchanged after the listener or [handleGoogleSignIn] has run, so a ban
    survives each new sign-in; and the collection stays keyed by [uid]. *)
Theorem sign_in_keeps_user_documents fault reported authReady popup b app :
  keyedByUid (users b) →
  let b1 := (onAuthStateChanged fault reported b app).1 in
  let b2 := (handleGoogleSignIn authReady popup fault b app).1 in
  (∀ k d, users b !! k = Some d → users b1 !! k = Some d) ∧ keyedByUid (users b1) ∧
  (∀ k d, users b !! k = Some d → users b2 !! k = Some d) ∧ keyedByUid (users b2).
Proof.
  intros Hkey.
  assert (Hins : ∀ u : AuthUser, users b !! uid u = None →
            (∀ k d, users b !! k = Some d →
                    <[uid u := newUserDoc u]> (users b) !! k = Some d) ∧
            keyedByUid (<[uid u := newUserDoc u]> (users b))).
  { intros u Hnone. split.
    - intros k d Hd. rewrite lookup_insert_ne; [done|]. congruence.
    - intros k d. rewrite lookup_insert. case_decide.
      + intros [= <-]. by subst.
      + apply Hkey. }
  simpl. split_and!.
  1,2: unfold onAuthStateChanged, authListenerBody;
       destruct reported as [cu|]; simpl; try done;
       rewrite (usersWhereUid_keyed _ _ Hkey);
       destruct (users b !! uid cu) as [d0|] eqn:Hd0;
       [ destruct fault, (isBanned d0); simpl; done
       | destruct fault; simpl; try done; by apply Hins ].
  all: unfold handleGoogleSignIn;
       destruct authReady, popup as [u|]; simpl; try done;
       rewrite (usersWhereUid_keyed _ _ Hkey);
       destruct (users b !! uid u) as [d0|] eqn:Hd0;
       [ destruct fault; simpl; done
       | destruct fault; simpl; try done; by apply Hins ].
Qed.

Lemma sign_in_keeps_user_documents_witness :
  keyedByUid (users bannedBackend) ∧
  users (onAuthStateChanged NoFault (Some (mkAuthUser "u2" None))
           bannedBackend startApp).1 !! "u1"
    = Some (mkUserDoc "u1" (Some "Mallory") true).
Proof.
  assert (H1 : keyedByUid (users bannedBackend))
    by (apply keyedByUid_singleton; reflexivity).
  split; [exact H1|].
  apply (proj1 (sign_in_keeps_user_documents NoFault (Some (mkAuthUser "u2" None))
                  true None bannedBackend startApp H1)).
  reflexivity.
Defined.

(** X19: a banned user cannot act through the app.  In the session the
    listener leaves for a banned user, every handler call (submitting or
    deleting a post or a comment, voting) leaves the store as it is. *)
Theorem banned_user_cannot_act fault cu d b app db a s :
  keyedByUid (users b) →
  users b !! uid cu = Some d → isBanned d = true →
  actionSession a = sessionOf (onAuthStateChanged fault (Some cu) b app).2 db →
  perform a s = s.
Proof.
  intros Hkey Hd Hban Hsess.
  assert (Hnone : user (actionSession a) = None).
  { rewrite Hsess. unfold sessionOf, onAuthStateChanged, authListenerBody.
    rewrite (usersWhereUid_keyed _ _ Hkey), Hd, Hban. by destruct fault. }
  destruct a; simpl in *;
    unfold handlePostSubmit, handlePostDelete, handleCommentSubmit,
           handleCommentDelete, handleVote;
    by rewrite Hnone.
Qed.

Lemma banned_user_cannot_act_witness :
  perform (Vote (sessionOf (onAuthStateChanged NoFault
                              (Some (mkAuthUser "u1" (Some "Mallory")))
                              bannedBackend startApp).2 true)
                "post" "p1" "like" None) sampleStore
  = sampleStore.
Proof.
  assert (H1 : keyedByUid (users bannedBackend))
    by (apply keyedByUid_singleton; reflexivity).
  exact (banned_user_cannot_act NoFault (mkAuthUser "u1" (Some "Mallory")) _
           bannedBackend startApp true
           (Vote (sessionOf (onAuthStateChanged NoFault
                               (Some (mkAuthUser "u1" (Some "Mallory")))
                               bannedBackend startApp).2 true)
                 "post" "p1" "like" None)
           sampleStore H1 eq_refl eq_refl eq_refl).
Defined.

(** X20: the listener is idempotent.  With the users collection keyed by
    [uid] and no failing SDK call, running the listener again for the same
    reported user changes neither the backend nor the component state. *)
Theorem onAuthStateChanged_idempotent reported b app :
  keyedByUid (users b) →
  let r := onAuthStateChanged NoFault reported b app in
  onAuthStateChanged NoFault reported r.1 r.2 = r.
Proof.
  intros Hkey. destruct b as [coll cur], app as [au ready ld msg op].
  simpl in Hkey. unfold onAuthStateChanged, authListenerBody. simpl.
  destruct reported as [[u dn]|]; simpl; [|done].
  rewrite (usersWhereUid_keyed _ _ Hkey).
  destruct (coll !! u) as [d|] eqn:Hd; simpl.
  - destruct (isBanned d) eqn:Hban; simpl;
      by rewrite (usersWhereUid_keyed _ _ Hkey), Hd, Hban.
  - rewrite usersWhereUid_keyed.
    + by rewrite lookup_insert_eq.
    + intros k d'. rewrite lookup_insert. case_decide.
      * intros [= <-]. by subst.
      * apply Hkey.
Qed.

Lemma onAuthStateChanged_idempotent_witness :
  keyedByUid (users bannedBackend) ∧
  onAuthStateChanged NoFault (Some (mkAuthUser "u2" None))
    (onAuthStateChanged NoFault (Some (mkAuthUser "u2" None))
       bannedBackend startApp).1
    (onAuthStateChanged NoFault (Some (mkAuthUser "u2" None))
       bannedBackend startApp).2
  = onAuthStateChanged NoFault (Some (mkAuthUser "u2" None))
      bannedBackend startApp.
Proof.
  assert (H1 : keyedByUid (users bannedBackend))
    by (apply keyedByUid_singleton; reflexivity).
  split; [exact H1|].
  exact (onAuthStateChanged_idempotent (Some (mkAuthUser "u2" None))
           bannedBackend startApp H1).
Defined.

(** X21: whatever the users collection holds and whatever call fails, the
    listener ends with the app marked ready and not loading, and the user
    it sets, if any, has the [uid] of the user the SDK reported. *)
Theorem onAuthStateChanged_sets_reported_user fault reported b app :
  let r := onAuthStateChanged fault reported b app in
  isAuthReady r.2 = true ∧ loading r.2 = false ∧
  (appUser r.2 = None ∨ uid <$> appUser r.2 = uid <$> reported).
Proof.
  unfold onAuthStateChanged, authListenerBody. simpl.
  destruct reported as [cu|]; simpl; [|by eauto].
  destruct fault, (usersWhereUid (uid cu) (users b)) as [|d ?];
    simpl; try destruct (isBanned d); simpl; eauto.
Qed.
